(** * minitorch, module 0: scalar operators and the Module / Parameter tree

  A shallow embedding of [minitorch/operators.py] and [minitorch/module.py],
  followed by the properties that the specification states about them.

  Conventions of the embedding.
  - A Python exception is a value of [exn]; a computation that may raise
    returns a [result].
  - A Python number is an [int] or a [float] ([num]).  A finite float is a
    rational, so it is represented by its exact value; comparison and
    selection are exact on this representation, arithmetic is carried out
    without rounding, and [nan] and the infinities are not represented.
  - A Python [dict] keyed by strings is an association list in insertion
    order ([dict]); assigning to a key that is present keeps its position.
  - A module tree is a finite tree: a [Module] owns its children, as
    section 3 of the specification requires (no sharing, no cycles). *)

From Stdlib Require Import List Ascii String ZArith QArith Qabs Qminmax Lia.
Import ListNotations.

Local Open Scope string_scope.
Local Open Scope list_scope.

(** ** Python run-time values *)

Module py.

(** The exception classes that the two files can raise, together with
    [NotImplementedError], the built-in class for an abstract method that
    has no implementation. *)
Inductive exn : Set :=
| TypeError
| ValueError
| KeyError
| ZeroDivisionError
| NotImplementedError.

Inductive result (A : Type) : Type :=
| Ok (a : A)
| Raise (e : exn).

Arguments Ok {A} a.
Arguments Raise {A} e.

Definition bind {A B : Type} (r : result A) (k : A -> result B) : result B :=
  match r with
  | Ok a => k a
  | Raise e => Raise e
  end.

Definition raises {A : Type} (r : result A) : bool :=
  match r with
  | Ok _ => false
  | Raise _ => true
  end.

(** *** Numbers *)

Inductive num : Set :=
| Int (n : Z)
| Float (q : Q).

Definition num_val (x : num) : Q :=
  match x with
  | Int n => inject_Z n
  | Float q => q
  end.

(** Comparisons are by numeric value, across [int] and [float]. *)
Definition ge (x y : num) : bool := Qle_bool (num_val y) (num_val x).
Definition le (x y : num) : bool := Qle_bool (num_val x) (num_val y).
Definition gt (x y : num) : bool := negb (le x y).
Definition lt (x y : num) : bool := negb (ge x y).
Definition eqb (x y : num) : bool := Qeq_bool (num_val x) (num_val y).

(** [x + y], [x * y], [-x]: an [int] when every operand is an [int], a
    [float] otherwise. *)
Definition add (x y : num) : num :=
  match x, y with
  | Int a, Int b => Int (a + b)
  | _, _ => Float (Qred (num_val x + num_val y))
  end.

Definition mul (x y : num) : num :=
  match x, y with
  | Int a, Int b => Int (a * b)
  | _, _ => Float (Qred (num_val x * num_val y))
  end.

Definition neg (x : num) : num :=
  match x with
  | Int a => Int (- a)
  | Float q => Float (Qred (- q))
  end.

(** [x / y]: true division, a [float] whatever the operands are. *)
Definition truediv (x y : num) : result num :=
  if eqb y (Int 0) then Raise ZeroDivisionError
  else Ok (Float (Qred (num_val x / num_val y))).

(** *** Dictionaries keyed by strings, in insertion order *)

Section Dict.
Context {V : Type}.

Definition dict : Type := list (string * V).

(** [d.get(key)] *)
Fixpoint get (key : string) (d : dict) : option V :=
  match d with
  | [] => None
  | (k, v) :: rest => if String.eqb key k then Some v else get key rest
  end.

(** [key in d] *)
Fixpoint contains (key : string) (d : dict) : bool :=
  match d with
  | [] => false
  | (k, _) :: rest => if String.eqb key k then true else contains key rest
  end.

(** [d[key]] *)
Definition getitem (d : dict) (key : string) : result V :=
  match get key d with
  | Some v => Ok v
  | None => Raise KeyError
  end.

(** [d[key] = v] *)
Fixpoint setitem (d : dict) (key : string) (v : V) : dict :=
  match d with
  | [] => [(key, v)]
  | (k, w) :: rest =>
      if String.eqb key k then (k, v) :: rest
      else (k, w) :: setitem rest key v
  end.

(** [d.items()], [d.values()] *)
Definition items (d : dict) : list (string * V) := d.
Definition values (d : dict) : list V := List.map snd d.
End Dict.

Arguments dict V : clear implicits.

(** [zip(l1, l2)]: pairing stops when either list is exhausted. *)
Fixpoint zip {A B : Type} (l1 : list A) (l2 : list B) : list (A * B) :=
  match l1, l2 with
  | x :: r1, y :: r2 => (x, y) :: zip r1 r2
  | _, _ => []
  end.

(** [x ** n] for an [int] exponent [n >= 0].  For an [int] base it is the
    exact [int] power.  For a [float] base it is the power of the platform's
    floating point, which rounds, underflows to [0.0] and raises on
    overflow: [float_pow] stands for it. *)
Definition pow (float_pow : Q -> nat -> result num) (x : num) (n : nat)
  : result num :=
  match x with
  | Int a => Ok (Int (a ^ Z.of_nat n))
  | Float q => float_pow q n
  end.

(** [x - y] and [abs(x)], with the typing of [x + y]. *)
Definition sub (x y : num) : num :=
  match x, y with
  | Int a, Int b => Int (a - b)
  | _, _ => Float (Qred (num_val x - num_val y))
  end.

Definition abs (x : num) : num :=
  match x with
  | Int a => Int (Z.abs a)
  | Float q => Float (Qred (Qabs q))
  end.

(** The literal [1e-5]: the double nearest to a hundred-thousandth,
    [5902958103587057 / 2 ** 69]. *)
Definition float_1e_5 : num := Float (5902958103587057 # 590295810358705651712).

(** *** Strings *)

(** The one-character string that Python writes ["\n"]. *)
Definition newline : string := String "010"%char EmptyString.

(** [s.split("\n")]: the pieces of [s] between its line breaks; one piece,
    [s] itself, when [s] has none. *)
Fixpoint split_lines (s : string) : list string :=
  match s with
  | EmptyString => [EmptyString]
  | String c rest =>
      if Ascii.eqb c "010"%char then EmptyString :: split_lines rest
      else
        match split_lines rest with
        | line :: lines => String c line :: lines
        | [] => [String c EmptyString]
        end
  end.

(** [sep.join(l)] *)
Definition join (sep : string) (l : list string) : string := String.concat sep l.

(** [n * s] *)
Fixpoint str_mul (n : nat) (s : string) : string :=
  match n with
  | O => EmptyString
  | S k => (s ++ str_mul k s)%string
  end.

(** [True] when [s] has a line break. *)
Fixpoint has_newline (s : string) : bool :=
  match s with
  | EmptyString => false
  | String c rest => if Ascii.eqb c "010"%char then true else has_newline rest
  end.

(** [list(d.keys())] *)
Definition keys {V : Type} (d : dict V) : list string := List.map fst d.

End py.

Notation "x <- e ;; k" := (py.bind e (fun x => k))
(at level 61, e at next level, right associativity).

(** ** operators.py *)

Module operators.
Import py.

Definition mul (x y : num) : num := py.mul x y.

Definition id {A : Type} (x : A) : A := x.

Definition add (x y : num) : num := py.add x y.

Definition neg (x : num) : num := py.neg x.

Definition lt (x y : num) : bool := py.lt x y.

Definition eq (x y : num) : bool := py.eqb x y.

Definition max (x y : num) : num :=
  if py.ge x y then x else y.

Definition relu (x : num) : num := max (Int 0) x.

Section MathLibrary.
(** [math.log] belongs to the Python standard library, not to this
    repository: it is a parameter of [log]. *)
Variable math_log : num -> result num.

Definition log (x : num) : result num := math_log x.
End MathLibrary.

Definition inv (x : num) : result num :=
  if py.eqb x (Int 0) then Raise ValueError
  else py.truediv (Int 1) x.

Definition log_back (x upstream_grad : num) : result num :=
  if py.le x (Int 0) then Raise ValueError
  else
    r <- py.truediv (Int 1) x ;;
    Ok (py.mul upstream_grad r).

Definition relu_back (x upstream_grad : num) : num :=
  if py.gt x (Int 0) then upstream_grad else Int 0.

Definition map {A B : Type} (func : A -> B) : list A -> list B :=
  fun list => List.map (fun x => func x) list.

Definition zipWith {A B C : Type} (func : A -> B -> C)
  : list A -> list B -> list C :=
  fun list1 list2 => List.map (fun '(x, y) => func x y) (py.zip list1 list2).

(** The loop of [process]: [ans] is the accumulator, [ls] what is left to
    visit. *)
Fixpoint reduce_loop {A B : Type} (func : A -> B -> A) (ans : A) (ls : list B) : A :=
  match ls with
  | [] => ans
  | item :: rest => reduce_loop func (func ans item) rest
  end.

Definition reduce {A B : Type} (func : A -> B -> A) (start : A) : list B -> A :=
  fun ls => reduce_loop func start ls.

Definition negList (l : list num) : list num := map neg l.

Definition addLists (l1 l2 : list num) : list num := zipWith add l1 l2.

Definition sum (l : list num) : num := reduce add (Int 0) l.

Definition prod (l : list num) : num := reduce mul (Int 1) l.

Definition is_close (x y : num) : bool :=
  py.lt (py.abs (py.sub x y)) py.float_1e_5.

Section FloatPower.
(** The floating-point power of the platform, as in [py.pow]. *)
Variable float_pow : Q -> nat -> result num.

Definition inv_back (x upstream_grad : num) : result num :=
  if py.eqb x (Int 0) then Raise ValueError
  else
    p <- py.pow float_pow x 2 ;;
    r <- py.truediv (Int (-1)) p ;;
    Ok (py.mul upstream_grad r).
End FloatPower.

End operators.

(** ** module.py *)

Module module.
Import py.

(** *** Parameter *)

(** The autodiff variable a [Parameter_] is designed to hold: the one kind
    of payload that has a [requires_grad_] method and a [name] field. *)
Record Var : Type := mkVar {
  var_data : num;
  var_requires_grad : bool;
  var_name : option string }.

(** A payload: any value ([Opaque], for which
    [hasattr(x, "requires_grad_")] is false) or a variable ([Tracked], for
    which it is true). *)
Inductive payload : Type :=
| Opaque (x : num)
| Tracked (v : Var).

(** [if self.name:] is false for [None] and for the empty string. *)
Definition truthy (name : option string) : bool :=
  match name with
  | Some s => negb (String.eqb s "")
  | None => false
  end.

(** The lines that [__init__] and [update] share:
    [self.value.requires_grad_(True)], then [self.value.name = self.name]
    when the name is set. *)
Definition mark (x : payload) (name : option string) : payload :=
  match x with
  | Opaque _ => x
  | Tracked v =>
      let v1 := mkVar (var_data v) true (var_name v) in
      Tracked (if truthy name then mkVar (var_data v1) (var_requires_grad v1) name
               else v1)
  end.

(** The class [Parameter] of the source ([Parameter] is a reserved word). *)
Record Parameter_ : Type := mkParameter {
  value : payload;
  name : option string }.

Definition Parameter___init__ (x : payload) (name : option string) : Parameter_ :=
  mkParameter (mark x name) name.

Definition update (self : Parameter_) (x : payload) : Parameter_ :=
  mkParameter (mark x (name self)) (name self).

(** *** Module *)

(** Values that are neither a [Parameter_] nor a [Module].  [PFunction f]
    is a function object, known by its name [f]; the other values cannot be
    called. *)
Inductive plain : Type :=
| PNone
| PBool (b : bool)
| PNum (x : num)
| PStr (s : string)
| PFunction (f : string).

(** An instance of [Module] or of a subclass.  [_modules] and [_parameters]
    are the two storage dictionaries; [fields] is the rest of the
    instance's [__dict__] (the ordinary attributes, [training] among
    them); [cls_forward] is the function that the instance's class
    defines as its method [forward], by name, [None] for [Module] itself,
    which defines none. *)
#[warnings="-register-all"]
Inductive Module : Type := mkModule {
  _modules : dict Module;
  _parameters : dict Parameter_;
  fields : dict plain;
  cls_forward : option string }.

(** What an attribute assignment receives and an attribute lookup returns. *)
Inductive Any : Type :=
| AParameter (p : Parameter_)
| AModule (m : Module)
| APlain (v : plain).

(** [Module()]: the three assignments of [__init__]. *)
Definition Module___init__ : Module :=
  mkModule [] [] [("training", PBool true)] None.

Definition training (self : Module) : option plain :=
  get "training" (fields self).

Definition modules (self : Module) : list Module :=
  values (_modules self).

(** [_set_mode_recursive] returns the tree after the call, together with
    the modules whose [training] it assigned, in the order of the
    assignments; a module is named by the list of child names that leads
    to it from the module the call started at ([path]). *)
Fixpoint _set_mode_recursive (mode : bool) (path : list string) (self : Module)
  : Module * list (list string) :=
  match self with
  | mkModule ms ps fs fw =>
      let visited :=
        (fix loop (children : dict Module) : dict Module * list (list string) :=
           match children with
           | [] => ([], [])
           | (k, child) :: rest =>
               let (child', l1) := _set_mode_recursive mode (path ++ [k]) child in
               let (rest', l2) := loop rest in
               ((k, child') :: rest', l1 ++ l2)
           end) ms in
      (mkModule (fst visited) ps (setitem fs "training" (PBool mode)) fw,
       path :: snd visited)
  end.

Definition train (self : Module) : Module :=
  fst (_set_mode_recursive true [] self).

Definition eval (self : Module) : Module :=
  fst (_set_mode_recursive false [] self).

Fixpoint _named_parameters (module : Module) (prefix : string)
  : list (string * Parameter_) :=
  match module with
  | mkModule ms ps _ _ =>
      List.map (fun '(name, param) => ((prefix ++ name)%string, param)) (items ps)
      ++ List.flat_map
           (fun '(child_name, child_module) =>
              _named_parameters child_module (prefix ++ child_name ++ ".")%string)
           (items ms)
  end.

Definition named_parameters (self : Module) : list (string * Parameter_) :=
  _named_parameters self "".

Definition parameters (self : Module) : list Parameter_ :=
  List.map (fun '(_, param) => param) (named_parameters self).

Definition add_parameter (self : Module) (k : string) (v : payload)
  : Module * Parameter_ :=
  let val := Parameter___init__ v (Some k) in
  (mkModule (_modules self) (setitem (_parameters self) k val)
     (fields self) (cls_forward self),
   val).

Definition add_module (self : Module) (name : string) (module : Module) : Module :=
  mkModule (setitem (_modules self) name module) (_parameters self)
    (fields self) (cls_forward self).

(** The instance after an assignment.  [Instance m]: the instance is [m].
    [StoreReplaced self slot v]: the instance is [self] with the storage
    dictionary [slot] ([_modules] or [_parameters]) itself overwritten by the
    plain value [v]; such an instance has lost that dictionary, and is no
    [Module] of this file any more. *)
Inductive assigned : Type :=
| Instance (m : Module)
| StoreReplaced (self : Module) (slot : string) (v : plain).

(** [object.__setattr__(self, key, val)] for a plain value: it writes the
    instance's [__dict__].  The two storage dictionaries live in that
    [__dict__] as well, under the keys [_modules] and [_parameters], so an
    assignment to one of these names replaces the dictionary by the
    value. *)
Definition object___setattr__ (self : Module) (key : string) (val : plain)
  : assigned :=
  if String.eqb key "_modules" || String.eqb key "_parameters"
  then StoreReplaced self key val
  else Instance (mkModule (_modules self) (_parameters self)
                   (setitem (fields self) key val) (cls_forward self)).

Definition __setattr__ (self : Module) (key : string) (val : Any) : assigned :=
  match val with
  | AParameter p =>
      Instance (mkModule (_modules self) (setitem (_parameters self) key p)
                  (fields self) (cls_forward self))
  | AModule m =>
      Instance (mkModule (setitem (_modules self) key m) (_parameters self)
                  (fields self) (cls_forward self))
  | APlain v => object___setattr__ self key v
  end.

Definition __getattr__ (self : Module) (key : string) : result Any :=
  if contains key (_parameters self) then
    p <- getitem (_parameters self) key ;; Ok (AParameter p)
  else if contains key (_modules self) then
    m <- getitem (_modules self) key ;; Ok (AModule m)
  else Ok (APlain PNone).

Section Functions.
(** What the run-time does when a function object is called, by the name
    of the function and the arguments of the call: the functions are code
    of the users of this file.  A method is called with the instance as its
    first argument. *)
Variable call_function : string -> list Any -> result plain.

End Functions.



(** A module and its descendants, a module before its children, the
    children in insertion order. *)
Fixpoint descendants (self : Module) : list Module :=
  match self with
  | mkModule ms _ _ _ =>
      self :: List.flat_map (fun '(_, child) => descendants child) ms
  end.

(** The paths of a module and its descendants, in the same order. *)
Fixpoint paths (path : list string) (self : Module) : list (list string) :=
  match self with
  | mkModule ms _ _ _ =>
      path :: List.flat_map (fun '(k, child) => paths (path ++ [k]) child) ms
  end.



(** The module that a list of child names leads to. *)
Fixpoint resolve (self : Module) (path : list string) : option Module :=
  match path with
  | [] => Some self
  | k :: rest =>
      match get k (_modules self) with
      | Some child => resolve child rest
      | None => None
      end
  end.

(** The qualified name of the parameter [name] of the module at [path]:
    the child names and the parameter name, joined by dots. *)
Fixpoint qualified (path : list string) (name : string) : string :=
  match path with
  | [] => name
  | k :: rest => (k ++ "." ++ qualified rest name)%string
  end.

(** *** Rendering *)

(** The helper [_addindent] of [__repr__].  [s2.pop(0)] takes the first
    line off; [split] never returns an empty list, so there is one. *)
Definition _addindent (s_ : string) (numSpaces : nat) : string :=
  let s2 := split_lines s_ in
  if Nat.eqb (List.length s2) 1 then s_
  else
    match s2 with
    | first :: s2 =>
        let s2 := List.map (fun line => (str_mul numSpaces " " ++ line)%string) s2 in
        let s := join newline s2 in
        (first ++ newline ++ s)%string
    | [] => s_
    end.

(** [__repr__].  The record does not hold the class of an instance:
    [class_name] gives [self.__class__.__name__]. *)
Fixpoint __repr__ (class_name : Module -> string) (self : Module) : string :=
  match self with
  | mkModule ms _ _ _ =>
      let child_lines :=
        List.map
          (fun '(key, module) =>
             ("(" ++ key ++ "): " ++ _addindent (__repr__ class_name module) 2)%string)
          (items ms) in
      let lines := child_lines in
      let main_str := (class_name self ++ "(")%string in
      let main_str :=
        match lines with
        | [] => main_str
        | _ :: _ =>
            (main_str
             ++ ((newline ++ "  ") ++ join (newline ++ "  ") lines ++ newline))%string
        end in
      (main_str ++ ")")%string
  end.

(** [target] is reached from [self] through children registered under the
    names of [path], in turn. *)
Fixpoint reach (self : Module) (path : list string) (target : Module) : Prop :=
  match path with
  | [] => target = self
  | k :: rest =>
      exists child : Module,
        In (k, child) (items (_modules self)) /\ reach child rest target
  end.

(** Induction on a module tree: the children satisfy the property. *)
Section ModuleInduction.
Variable P : Module -> Prop.
Hypothesis step :
  forall ms ps fs fw,
    Forall (fun kc : string * Module => P (snd kc)) ms ->
    P (mkModule ms ps fs fw).

Fixpoint Module_tree_ind (m : Module) : P m :=
  match m with
  | mkModule ms ps fs fw =>
      step ms ps fs fw
        ((fix children (l : dict Module)
            : Forall (fun kc : string * Module => P (snd kc)) l :=
            match l with
            | [] => Forall_nil _
            | (k, c) :: rest =>
                Forall_cons (k, c) (Module_tree_ind c) (children rest)
            end) ms)
  end.
End ModuleInduction.

End module.

(** * Properties *)

(** ** The run-time layer *)

Module py_facts.
Import py.

Lemma ge_total (x y : num) : ge x y = false -> ge y x = true.
Proof.
  unfold ge. intros H.
  apply Qle_bool_iff.
  destruct (Qlt_le_dec (num_val x) (num_val y)) as [Hlt | Hle].
  - apply Qlt_le_weak. exact Hlt.
  - apply Qle_bool_iff in Hle. congruence.
Qed.

Lemma ge_refl (x : num) : ge x x = true.
Proof. unfold ge. apply Qle_bool_iff. apply Qle_refl. Qed.

Lemma eqb_ge (x y : num) : eqb x y = true -> ge x y = true.
Proof.
  unfold eqb, ge. intros H.
  apply Qeq_bool_iff in H. apply Qle_bool_iff.
  rewrite H. apply Qle_refl.
Qed.

Lemma le_zero_of_eqb_zero (x : num) : eqb x (Int 0) = true -> le x (Int 0) = true.
Proof.
  unfold eqb, le. intros H.
  apply Qeq_bool_iff in H. apply Qle_bool_iff.
  rewrite H. apply Qle_refl.
Qed.

Lemma truediv_ok (x y : num) :
  eqb y (Int 0) = false ->
  truediv x y = Ok (Float (Qred (num_val x / num_val y))).
Proof. unfold truediv. intros ->. reflexivity. Qed.

Section DictFacts.
Context {V : Type}.
Implicit Types (d : dict V) (key k : string) (v : V).

Lemma contains_get d key :
  contains key d = match get key d with Some _ => true | None => false end.
Proof.
  induction d as [| [k v] rest IH]; simpl.
  - reflexivity.
  - destruct (String.eqb key k); [reflexivity | exact IH].
Qed.

Lemma getitem_of_contains d key :
  contains key d = true -> exists v, get key d = Some v /\ getitem d key = Ok v.
Proof.
  rewrite contains_get. unfold getitem.
  destruct (get key d) as [v |]; [| discriminate].
  intros _. exists v. split; reflexivity.
Qed.

Lemma get_In d key v : get key d = Some v -> In (key, v) d.
Proof.
  induction d as [| [k w] rest IH]; simpl; [discriminate |].
  destruct (String.eqb key k) eqn:E.
  - apply String.eqb_eq in E. intros [= ->]. left. congruence.
  - intros H. right. apply IH. exact H.
Qed.

Lemma get_setitem_same d key v : get key (setitem d key v) = Some v.
Proof.
  induction d as [| [k w] rest IH]; simpl.
  - rewrite String.eqb_refl. reflexivity.
  - destruct (String.eqb key k) eqn:E; simpl; rewrite E; [reflexivity | exact IH].
Qed.

Lemma get_setitem_other d key k v :
  String.eqb k key = false -> get k (setitem d key v) = get k d.
Proof.
  intros Hne.
  induction d as [| [k' w] rest IH]; simpl.
  - rewrite Hne. reflexivity.
  - destruct (String.eqb key k') eqn:E; simpl.
    + apply String.eqb_eq in E. subst k'. rewrite Hne. reflexivity.
    + destruct (String.eqb k k'); [reflexivity | exact IH].
Qed.

Lemma contains_setitem_same d key v : contains key (setitem d key v) = true.
Proof. rewrite contains_get, get_setitem_same. reflexivity. Qed.

Lemma setitem_setitem d key v w :
  setitem (setitem d key v) key w = setitem d key w.
Proof.
  induction d as [| [k u] rest IH]; simpl.
  - rewrite String.eqb_refl. reflexivity.
  - destruct (String.eqb key k) eqn:E; simpl; rewrite E; [reflexivity |].
    f_equal. exact IH.
Qed.

End DictFacts.

Lemma zip_length {A B : Type} (l1 : list A) (l2 : list B) :
  List.length (zip l1 l2) = Nat.min (List.length l1) (List.length l2).
Proof.
  revert l2. induction l1 as [| x r1 IH]; intros [| y r2]; simpl; try reflexivity.
  f_equal. apply IH.
Qed.

Lemma zip_nth_error {A B : Type} (l1 : list A) (l2 : list B) (i : nat) :
  nth_error (zip l1 l2) i =
  match nth_error l1 i, nth_error l2 i with
  | Some x, Some y => Some (x, y)
  | _, _ => None
  end.
Proof.
  revert l2 i. induction l1 as [| x r1 IH]; intros [| y r2] [| i]; simpl;
    try reflexivity.
  - destruct (nth_error r1 i); reflexivity.
  - apply IH.
Qed.

End py_facts.

(** ** operators.py *)

Module operators_facts.
Import py py_facts.

Lemma max_cases (x y : num) :
  (ge x y = true /\ operators.max x y = x) \/
  (ge x y = false /\ operators.max x y = y).
Proof.
  unfold operators.max. destruct (ge x y); [left | right]; split; reflexivity.
Qed.

(** C3, as the specification words it, fails: [3] and [3.0] are equal, and
    [max(3, 3.0)] is the first operand, the [int] [3], not the second. *)
Lemma max_tie_is_not_second_operand :
  exists x y : num,
    eqb x y = true /\ operators.max x y <> y.
Proof.
  exists (Int 3), (Float (3 # 1)). split.
  - reflexivity.
  - discriminate.
Qed.

(** C3, amended: [max x y] is one of its operands and is greater than or
    equal to both; when the operands are equal it is the first operand [x],
    which is what the documented rule [x if x >= y else y] says;
    [max(3, 3) = 3], [max(3, 5) = 5] and [max(5, 3) = 5]. *)
Theorem max_greater_ties_first (x y : num) :
  (operators.max x y = x \/ operators.max x y = y) /\
  ge (operators.max x y) x = true /\
  ge (operators.max x y) y = true /\
  (eqb x y = true -> operators.max x y = x) /\
  (ge x y = false -> operators.max x y = y) /\
  operators.max (Int 3) (Int 3) = Int 3 /\
  operators.max (Int 3) (Int 5) = Int 5 /\
  operators.max (Int 5) (Int 3) = Int 5.
Proof.
  destruct (max_cases x y) as [[Hge ->] | [Hge ->]].
  - repeat split; try reflexivity.
    + left. reflexivity.
    + apply ge_refl.
    + exact Hge.
    + congruence.
  - repeat split; try reflexivity.
    + right. reflexivity.
    + apply ge_total. exact Hge.
    + apply ge_refl.
    + intros Heq. apply eqb_ge in Heq. congruence.
Qed.

(** [relu] inherits the tie rule: at [0.0] it returns its own constant, the
    [int] [0]. *)
Example relu_at_float_zero : operators.relu (Float 0) = Int 0.
Proof. reflexivity. Qed.

Lemma inv_cases (x : num) :
  (eqb x (Int 0) = true /\ operators.inv x = Raise ValueError) \/
  (eqb x (Int 0) = false /\
   operators.inv x = Ok (Float (Qred (1 / num_val x)))).
Proof.
  unfold operators.inv. destruct (eqb x (Int 0)) eqn:E; [left | right].
  - split; reflexivity.
  - split; [reflexivity |]. apply (truediv_ok (Int 1) x E).
Qed.

Lemma log_back_cases (x g : num) :
  (le x (Int 0) = true /\ operators.log_back x g = Raise ValueError) \/
  (le x (Int 0) = false /\
   operators.log_back x g = Ok (mul g (Float (Qred (1 / num_val x))))).
Proof.
  unfold operators.log_back. destruct (le x (Int 0)) eqn:E; [left | right].
  - split; reflexivity.
  - split; [reflexivity |].
    assert (Hz : eqb x (Int 0) = false).
    { destruct (eqb x (Int 0)) eqn:Ez; [| reflexivity].
      apply le_zero_of_eqb_zero in Ez. congruence. }
    rewrite (truediv_ok (Int 1) x Hz). reflexivity.
Qed.

Lemma num_val_mul_float (g : num) (q : Q) :
  num_val (mul g (Float q)) == num_val g * q.
Proof. destruct g; cbn [mul num_val]; apply Qred_correct. Qed.

(** C7: [inv x] raises [ValueError] exactly when [x == 0] and otherwise
    returns the reciprocal [1 / x], so [inv(2)] is [0.5]; [log_back x g]
    raises [ValueError] exactly when [x <= 0] and otherwise returns
    [g * (1 / x)]; [log] has no check of its own: at every [x] it is whatever
    [math.log] is. *)
Theorem inv_log_back_domain (math_log : num -> result num) (x g : num) :
  (operators.inv x = Raise ValueError <-> num_val x == 0) /\
  (~ num_val x == 0 ->
   exists r, operators.inv x = Ok r /\ num_val r == 1 / num_val x) /\
  operators.inv (Int 2) = Ok (Float (1 # 2)) /\
  (operators.log_back x g = Raise ValueError <-> num_val x <= 0) /\
  (~ num_val x <= 0 ->
   exists r, operators.log_back x g = Ok r /\
             num_val r == num_val g * (1 / num_val x)) /\
  operators.log math_log x = math_log x.
Proof.
  assert (Hz : eqb x (Int 0) = true <-> num_val x == 0).
  { unfold eqb. apply Qeq_bool_iff. }
  assert (Hl : le x (Int 0) = true <-> num_val x <= 0).
  { unfold le. apply Qle_bool_iff. }
  repeat split.
  - intros H. apply Hz.
    destruct (inv_cases x) as [[E _] | [_ E]]; [exact E | congruence].
  - intros H. apply Hz in H.
    destruct (inv_cases x) as [[_ E] | [E _]]; [exact E | congruence].
  - intros Hne.
    destruct (inv_cases x) as [[E _] | [_ E]].
    + apply Hz in E. contradiction.
    + eexists. split; [exact E |]. cbn [num_val]. apply Qred_correct.
  - intros H. apply Hl.
    destruct (log_back_cases x g) as [[E _] | [_ E]]; [exact E | congruence].
  - intros H. apply Hl in H.
    destruct (log_back_cases x g) as [[_ E] | [E _]]; [exact E | congruence].
  - intros Hpos.
    destruct (log_back_cases x g) as [[E _] | [_ E]].
    + apply Hl in E. contradiction.
    + eexists. split; [exact E |].
      rewrite num_val_mul_float. rewrite Qred_correct. reflexivity.
Qed.

(** C8: [zipWith f xs ys] has the length of the shorter of [xs] and [ys];
    its [i]-th element is [f] of the [i]-th elements of [xs] and [ys];
    [zipWith(add)([1,2,3],[10,20])] is [[11,22]]; [addLists] is
    [zipWith(add)]. *)
Theorem zipWith_pairwise {A B C : Type} (f : A -> B -> C)
  (xs : list A) (ys : list B) :
  List.length (operators.zipWith f xs ys)
    = Nat.min (List.length xs) (List.length ys) /\
  (forall i : nat,
     nth_error (operators.zipWith f xs ys) i =
     match nth_error xs i, nth_error ys i with
     | Some x, Some y => Some (f x y)
     | _, _ => None
     end) /\
  operators.zipWith operators.add [Int 1; Int 2; Int 3] [Int 10; Int 20]
    = [Int 11; Int 22] /\
  (forall l1 l2 : list num,
     operators.addLists l1 l2 = operators.zipWith operators.add l1 l2).
Proof.
  unfold operators.zipWith. repeat split.
  - rewrite List.length_map. apply zip_length.
  - intros i. rewrite nth_error_map, zip_nth_error.
    destruct (nth_error xs i), (nth_error ys i); reflexivity.
Qed.

Lemma reduce_loop_fold_left {A B : Type} (f : A -> B -> A) (ls : list B) (ans : A) :
  operators.reduce_loop f ans ls = fold_left f ls ans.
Proof.
  revert ans. induction ls as [| item rest IH]; intros ans; simpl.
  - reflexivity.
  - apply IH.
Qed.

Lemma reduce_loop_snoc {A B : Type} (f : A -> B -> A) (ls : list B) (x : B) (ans : A) :
  operators.reduce_loop f ans (ls ++ [x]) = f (operators.reduce_loop f ans ls) x.
Proof.
  revert ans. induction ls as [| item rest IH]; intros ans; simpl.
  - reflexivity.
  - apply IH.
Qed.

(** C9: [reduce f start] is a left fold: on the empty sequence it returns
    [start], and on [x1, ..., xn] it returns
    [f (... (f (f start x1) x2) ...) xn]; [reduce(add, 0)] returns [0] on the
    empty sequence and [6] on [[1,2,3]]; [sum] is [reduce(add, 0)] and [prod]
    is [reduce(mul, 1)]. *)
Theorem reduce_left_fold {A B : Type} (f : A -> B -> A) (start : A) :
  operators.reduce f start [] = start /\
  (forall (xs : list B) (x : B),
     operators.reduce f start (xs ++ [x]) = f (operators.reduce f start xs) x) /\
  (forall xs : list B, operators.reduce f start xs = fold_left f xs start) /\
  operators.reduce operators.add (Int 0) [] = Int 0 /\
  operators.reduce operators.add (Int 0) [Int 1; Int 2; Int 3] = Int 6 /\
  (forall l : list num, operators.sum l = operators.reduce operators.add (Int 0) l) /\
  (forall l : list num, operators.prod l = operators.reduce operators.mul (Int 1) l).
Proof.
  unfold operators.reduce. repeat split.
  - intros xs x. apply reduce_loop_snoc.
  - intros xs. apply reduce_loop_fold_left.
Qed.

End operators_facts.

(** ** module.py *)

Module module_facts.
Import py py_facts module.

Lemma Forall_flat_map_intro {A B : Type} (Q : B -> Prop) (f : A -> list B) (l : list A) :
  Forall (fun x => Forall Q (f x)) l -> Forall Q (flat_map f l).
Proof.
  induction 1 as [| x rest Hx _ IH]; simpl.
  - constructor.
  - apply Forall_app. split; assumption.
Qed.

(** *** Attribute lookup *)

Lemma getattr_spec (self : Module) (key : string) :
  __getattr__ self key =
  Ok (match get key (_parameters self) with
      | Some p => AParameter p
      | None =>
          match get key (_modules self) with
          | Some m => AModule m
          | None => APlain PNone
          end
      end).
Proof.
  unfold __getattr__.
  destruct (contains key (_parameters self)) eqn:Ep.
  - destruct (getitem_of_contains _ _ Ep) as (p & Hget & Hitem).
    rewrite Hitem, Hget. reflexivity.
  - rewrite contains_get in Ep.
    destruct (get key (_parameters self)); [discriminate |].
    destruct (contains key (_modules self)) eqn:Em.
    + destruct (getitem_of_contains _ _ Em) as (m & Hget & Hitem).
      rewrite Hitem, Hget. reflexivity.
    + rewrite contains_get in Em.
      destruct (get key (_modules self)); [discriminate | reflexivity].
Qed.

(** C4: attribute lookup never raises: it returns the registered
    [Parameter_] when the name is a key of the parameter mapping, else the
    registered child when the name is a key of the child mapping, else
    [None]. *)
Theorem getattr_total (self : Module) (key : string) :
  raises (__getattr__ self key) = false /\
  __getattr__ self key =
  Ok (match get key (_parameters self) with
      | Some p => AParameter p
      | None =>
          match get key (_modules self) with
          | Some m => AModule m
          | None => APlain PNone
          end
      end).
Proof.
  rewrite getattr_spec. split; reflexivity.
Qed.

(** C10: [add_parameter] and [add_module] under one name, in either order,
    leave the name in both mappings, and the lookup of a name that is in
    both mappings returns the [Parameter_]. *)
Theorem getattr_parameter_first (self : Module) (key : string) :
  (forall (v : payload) (child : Module),
     let m := add_module (fst (add_parameter self key v)) key child in
     contains key (_parameters m) = true /\
     contains key (_modules m) = true /\
     __getattr__ m key = Ok (AParameter (Parameter___init__ v (Some key)))) /\
  (forall (v : payload) (child : Module),
     let m := fst (add_parameter (add_module self key child) key v) in
     contains key (_parameters m) = true /\
     contains key (_modules m) = true /\
     __getattr__ m key = Ok (AParameter (Parameter___init__ v (Some key)))) /\
  (forall (p : Parameter_) (child : Module),
     get key (_parameters self) = Some p ->
     get key (_modules self) = Some child ->
     __getattr__ self key = Ok (AParameter p)).
Proof.
  split; [| split].
  - intros v child m. subst m. split; [| split].
    + apply contains_setitem_same.
    + apply contains_setitem_same.
    + rewrite getattr_spec. cbn [add_module add_parameter fst _parameters].
      rewrite get_setitem_same. reflexivity.
  - intros v child m. subst m. split; [| split].
    + apply contains_setitem_same.
    + apply contains_setitem_same.
    + rewrite getattr_spec. cbn [add_module add_parameter fst _parameters].
      rewrite get_setitem_same. reflexivity.
  - intros p child Hp _. rewrite getattr_spec, Hp. reflexivity.
Qed.

(** *** Registration *)

Lemma setitem_value_inj {V : Type} (d : dict V) (key : string) (v w : V) :
  setitem d key v = setitem d key w -> v = w.
Proof.
  intros H.
  assert (E : get key (setitem d key v) = get key (setitem d key w))
    by (rewrite H; reflexivity).
  rewrite !get_setitem_same in E. congruence.
Qed.

(** C6, as the specification words it, fails: the two paths do not give
    identical entries for a parameter that wraps the same value.
    [M.w = Parameter(5)] stores a parameter whose name is [None];
    [M.add_parameter("w", 5)] stores one whose name is ["w"]. *)
Lemma assigned_parameter_keeps_its_name :
  exists m : Module,
    __setattr__ Module___init__ "w"
      (AParameter (Parameter___init__ (Opaque (Int 5)) None)) = Instance m /\
    get "w" (_parameters m) = Some (mkParameter (Opaque (Int 5)) None) /\
    get "w" (_parameters (fst (add_parameter Module___init__ "w" (Opaque (Int 5)))))
    = Some (mkParameter (Opaque (Int 5)) (Some "w")) /\
    m <> fst (add_parameter Module___init__ "w" (Opaque (Int 5))).
Proof.
  eexists. split; [reflexivity |]. split; [reflexivity |].
  split; [reflexivity | discriminate].
Qed.

(** C6, amended: [add_parameter(k, v)] and the assignment of a
    [Parameter_] to the attribute [k] write the same mapping,
    [_parameters], at the key [k], and nothing else; assigning the
    [Parameter_] that [add_parameter] builds gives the same module, entry
    for entry; either path after the other overwrites the entry in place,
    so that registering twice is registering once; and a [Parameter_] [p]
    gives the same module as [add_parameter] exactly when it is the one
    that [add_parameter] builds, [Parameter(v, k)]. *)
Theorem add_parameter_agrees_with_assignment
  (self : Module) (k : string) (v : payload) :
  _parameters (fst (add_parameter self k v))
    = setitem (_parameters self) k (Parameter___init__ v (Some k)) /\
  (forall p : Parameter_,
     exists m : Module,
       __setattr__ self k (AParameter p) = Instance m /\
       _parameters m = setitem (_parameters self) k p /\
       _modules m = _modules self /\
       _modules (fst (add_parameter self k v)) = _modules self /\
       fields m = fields self /\
       fields (fst (add_parameter self k v)) = fields self) /\
  __setattr__ self k (AParameter (snd (add_parameter self k v)))
    = Instance (fst (add_parameter self k v)) /\
  __setattr__ (fst (add_parameter self k v)) k
    (AParameter (snd (add_parameter self k v)))
    = Instance (fst (add_parameter self k v)) /\
  (forall p : Parameter_,
     fst (add_parameter
            (mkModule (_modules self) (setitem (_parameters self) k p)
               (fields self) (cls_forward self)) k v)
     = fst (add_parameter self k v)) /\
  (forall p : Parameter_,
     __setattr__ self k (AParameter p) = Instance (fst (add_parameter self k v))
     <-> p = Parameter___init__ v (Some k)).
Proof.
  split; [reflexivity |]. split.
  { intros p. eexists. split; [reflexivity |]. repeat split. }
  split; [reflexivity |].
  split.
  { cbn [__setattr__ add_parameter fst snd _modules _parameters fields cls_forward].
    rewrite setitem_setitem. reflexivity. }
  split.
  { intros p.
    cbn [add_parameter fst _modules _parameters fields cls_forward].
    rewrite setitem_setitem. reflexivity. }
  intros p. split.
  - cbn [__setattr__ add_parameter fst]. intros [= H].
    apply setitem_value_inj in H. exact H.
  - intros ->. reflexivity.
Qed.

(** *** Calling a module *)







(** *** Enumeration of the parameters *)

Lemma append_assoc (a b c : string) : ((a ++ b) ++ c = a ++ (b ++ c))%string.
Proof.
  induction a as [| ch a IH]; simpl; [reflexivity | rewrite IH; reflexivity].
Qed.

Lemma _named_parameters_unfold (module : Module) (prefix : string) :
  _named_parameters module prefix =
  List.map (fun '(name, param) => ((prefix ++ name)%string, param))
    (items (_parameters module))
  ++ List.flat_map
       (fun '(child_name, child_module) =>
          _named_parameters child_module (prefix ++ child_name ++ ".")%string)
       (items (_modules module)).
Proof. destruct module; reflexivity. Qed.

Lemma named_parameters_own (module : Module) (prefix name : string) (p : Parameter_) :
  In (name, p) (_parameters module) ->
  In ((prefix ++ name)%string, p) (_named_parameters module prefix).
Proof.
  intros Hin. rewrite _named_parameters_unfold. apply in_or_app. left.
  apply (in_map (fun '(name, param) => ((prefix ++ name)%string, param))
           _ (name, p) Hin).
Qed.

Lemma named_parameters_child (module child : Module) (prefix k : string)
  (entry : string * Parameter_) :
  In (k, child) (_modules module) ->
  In entry (_named_parameters child (prefix ++ k ++ ".")%string) ->
  In entry (_named_parameters module prefix).
Proof.
  intros Hin Hentry. rewrite _named_parameters_unfold. apply in_or_app. right.
  apply in_flat_map. exists (k, child). split; assumption.
Qed.

(** The parameter [name] of the module at [path] is enumerated under its
    qualified name. *)
Lemma named_parameters_resolve (path : list string) :
  forall (self target : Module) (prefix name : string) (p : Parameter_),
    resolve self path = Some target ->
    get name (_parameters target) = Some p ->
    In ((prefix ++ qualified path name)%string, p) (_named_parameters self prefix).
Proof.
  induction path as [| k rest IH]; intros self target prefix name p Hres Hget.
  - cbn [resolve] in Hres. injection Hres as <-.
    apply named_parameters_own. apply get_In. exact Hget.
  - cbn [resolve] in Hres.
    destruct (get k (_modules self)) as [child |] eqn:Hchild; [| discriminate].
    apply (named_parameters_child self child prefix k).
    + apply get_In. exact Hchild.
    + cbn [qualified]. rewrite <- !append_assoc.
      rewrite (append_assoc prefix k ".").
      apply (IH child target _ name p Hres Hget).
Qed.

(** C1: [named_parameters] starts with the empty prefix; at each module the
    enumeration is the module's own parameters, in insertion order, each
    under the prefix followed by its name, and then the enumeration of each
    child, in insertion order, under the prefix extended by the child's name
    and a dot; a parameter reached through a path of child names is
    enumerated under its dot-joined name, and so a parameter [w] of a child
    registered as [a] is enumerated as [a.w]. *)
Theorem named_parameters_preorder (self : Module) :
  named_parameters self = _named_parameters self "" /\
  (forall (module : Module) (prefix : string),
     _named_parameters module prefix =
     List.map (fun '(name, param) => ((prefix ++ name)%string, param))
       (_parameters module)
     ++ List.flat_map
          (fun '(child_name, child_module) =>
             _named_parameters child_module (prefix ++ child_name ++ ".")%string)
          (_modules module)) /\
  (forall (path : list string) (target : Module) (name : string) (p : Parameter_),
     resolve self path = Some target ->
     get name (_parameters target) = Some p ->
     In (qualified path name, p) (named_parameters self)) /\
  (forall (child : Module) (p : Parameter_),
     get "a" (_modules self) = Some child ->
     get "w" (_parameters child) = Some p ->
     In ("a.w", p) (named_parameters self)).
Proof.
  split; [reflexivity |].
  split; [exact _named_parameters_unfold |].
  split.
  - intros path target name p Hres Hget.
    apply (named_parameters_resolve path self target "" name p Hres Hget).
  - intros child p Hchild Hget.
    apply (named_parameters_resolve ["a"] self child "" "w" p); [| exact Hget].
    cbn [resolve]. rewrite Hchild. reflexivity.
Qed.

(** The end-to-end example of the specification: a root, a child
    [encoder], and the parameter [w1] of the child holding [5]. *)
Example named_parameters_encoder :
  named_parameters
    (add_module Module___init__ "encoder"
       (fst (add_parameter Module___init__ "w1" (Opaque (Int 5)))))
  = [("encoder.w1", Parameter___init__ (Opaque (Int 5)) (Some "w1"))].
Proof. reflexivity. Qed.

(** *** Training mode *)

(** [self.training = mode] is an ordinary assignment: it goes through the
    last branch of [__setattr__] and writes the instance's own field. *)
Lemma setattr_training (self : Module) (mode : bool) :
  __setattr__ self "training" (APlain (PBool mode)) =
  Instance (mkModule (_modules self) (_parameters self)
              (setitem (fields self) "training" (PBool mode)) (cls_forward self)).
Proof. reflexivity. Qed.

Lemma set_mode_loop (mode : bool) (path : list string) (ms : dict Module) :
  (fix loop (children : dict Module) : dict Module * list (list string) :=
     match children with
     | [] => ([], [])
     | (k, child) :: rest =>
         let (child', l1) := _set_mode_recursive mode (path ++ [k]) child in
         let (rest', l2) := loop rest in
         ((k, child') :: rest', l1 ++ l2)
     end) ms =
  (List.map
     (fun '(k, child) => (k, fst (_set_mode_recursive mode (path ++ [k]) child))) ms,
   List.flat_map
     (fun '(k, child) => snd (_set_mode_recursive mode (path ++ [k]) child)) ms).
Proof.
  induction ms as [| [k child] rest IH]; [reflexivity |].
  rewrite IH. cbn [List.map List.flat_map].
  destruct (_set_mode_recursive mode (path ++ [k]) child) as [child' l1].
  reflexivity.
Qed.

Lemma _set_mode_recursive_unfold (mode : bool) (path : list string) (self : Module) :
  _set_mode_recursive mode path self =
  (mkModule
     (List.map
        (fun '(k, child) => (k, fst (_set_mode_recursive mode (path ++ [k]) child)))
        (_modules self))
     (_parameters self)
     (setitem (fields self) "training" (PBool mode))
     (cls_forward self),
   path :: List.flat_map
             (fun '(k, child) => snd (_set_mode_recursive mode (path ++ [k]) child))
             (_modules self)).
Proof.
  destruct self as [ms ps fs fw].
  cbn [_set_mode_recursive _modules _parameters fields cls_forward].
  rewrite set_mode_loop. reflexivity.
Qed.

(** What one call does to a tree, whatever path it starts at: every module
    of the result has the mode, the result has the shape of the tree, its
    parameters are untouched, and the assignments happen in pre-order. *)
Lemma set_mode_spec (mode : bool) (self : Module) :
  forall path : list string,
    Forall (fun m => training m = Some (PBool mode))
      (descendants (fst (_set_mode_recursive mode path self))) /\
    (forall path' : list string,
       paths path' (fst (_set_mode_recursive mode path self)) = paths path' self) /\
    (forall prefix : string,
       _named_parameters (fst (_set_mode_recursive mode path self)) prefix
       = _named_parameters self prefix) /\
    snd (_set_mode_recursive mode path self) = paths path self.
Proof.
  induction self as [ms ps fs fw IH] using Module_tree_ind.
  intros path. rewrite _set_mode_recursive_unfold.
  cbn [fst snd _modules _parameters fields cls_forward descendants paths
       _named_parameters items].
  split; [| split; [| split]].
  - constructor.
    + unfold training. cbn [fields]. apply get_setitem_same.
    + apply Forall_flat_map_intro.
      induction IH as [| [k child] rest Hchild _ IHrest]; cbn [List.map].
      * constructor.
      * constructor; [| exact IHrest].
        apply (Hchild (path ++ [k])).
  - intros path'. f_equal.
    induction IH as [| [k child] rest Hchild _ IHrest];
      cbn [List.map List.flat_map]; [reflexivity |].
    rewrite IHrest. f_equal. apply (Hchild (path ++ [k])).
  - intros prefix. unfold items. f_equal.
    induction IH as [| [k child] rest Hchild _ IHrest];
      cbn [List.map List.flat_map]; [reflexivity |].
    rewrite IHrest. f_equal. apply (Hchild (path ++ [k])).
  - f_equal.
    induction IH as [| [k child] rest Hchild _ IHrest];
      cbn [List.flat_map]; [reflexivity |].
    rewrite IHrest. f_equal. apply (Hchild (path ++ [k])).
Qed.

Lemma descendants_paths_length (self : Module) :
  forall path : list string,
    List.length (descendants self) = List.length (paths path self).
Proof.
  induction self as [ms ps fs fw IH] using Module_tree_ind.
  intros path. cbn [descendants paths List.length]. f_equal.
  induction IH as [| [k child] rest Hchild _ IHrest];
    cbn [List.flat_map]; [reflexivity |].
  rewrite !List.length_app, IHrest. f_equal. apply (Hchild (path ++ [k])).
Qed.

(** C5: [train] leaves [training] true, and [eval] leaves it false, in the
    module and in every descendant, at any depth; so does [eval] after
    [train], and [train] after [eval]; the tree keeps its shape, so the
    modules that are set are those of the tree; and the assignments are made
    in pre-order, a module before its children. *)
Theorem train_eval_every_descendant (self : Module) :
  Forall (fun m => training m = Some (PBool true)) (descendants (train self)) /\
  Forall (fun m => training m = Some (PBool false)) (descendants (eval self)) /\
  Forall (fun m => training m = Some (PBool false)) (descendants (eval (train self))) /\
  Forall (fun m => training m = Some (PBool true)) (descendants (train (eval self))) /\
  paths [] (train self) = paths [] self /\
  paths [] (eval self) = paths [] self /\
  List.length (descendants (train self)) = List.length (descendants self) /\
  List.length (descendants (eval self)) = List.length (descendants self) /\
  (forall mode : bool, snd (_set_mode_recursive mode [] self) = paths [] self).
Proof.
  unfold train, eval.
  pose proof (set_mode_spec true self []) as (Ht & Hpt & _ & _).
  pose proof (set_mode_spec false self []) as (He & Hpe & _ & _).
  split; [exact Ht |]. split; [exact He |].
  split; [apply (set_mode_spec false _ []) |].
  split; [apply (set_mode_spec true _ []) |].
  split; [apply Hpt |]. split; [apply Hpe |].
  split; [| split].
  - rewrite !(descendants_paths_length _ []), Hpt. reflexivity.
  - rewrite !(descendants_paths_length _ []), Hpe. reflexivity.
  - intros mode. apply (set_mode_spec mode self []).
Qed.

(** Three levels: after [train] then [eval], the root, its child and its
    grandchild are all in evaluation mode, and after [eval] then [train]
    all are in training mode. *)
Example three_levels_flip :
  let leaf := Module___init__ in
  let mid := add_module Module___init__ "leaf" leaf in
  let root := add_module Module___init__ "mid" mid in
  List.map training (descendants (eval (train root)))
    = [Some (PBool false); Some (PBool false); Some (PBool false)] /\
  List.map training (descendants (train (eval root)))
    = [Some (PBool true); Some (PBool true); Some (PBool true)].
Proof. split; reflexivity. Qed.

End module_facts.

(** * Further properties of the code *)

(** ** Numbers *)

Module num_facts.
Import py py_facts.

Lemma num_val_add (x y : num) : num_val (add x y) == num_val x + num_val y.
Proof.
  destruct x as [a | p], y as [b | q]; cbn [add num_val];
    try apply Qred_correct.
  rewrite inject_Z_plus. reflexivity.
Qed.

Lemma num_val_mul (x y : num) : num_val (mul x y) == num_val x * num_val y.
Proof.
  destruct x as [a | p], y as [b | q]; cbn [mul num_val];
    try apply Qred_correct.
  rewrite inject_Z_mult. reflexivity.
Qed.

Lemma num_val_neg (x : num) : num_val (neg x) == - num_val x.
Proof.
  destruct x as [a | q]; cbn [neg num_val].
  - rewrite inject_Z_opp. reflexivity.
  - apply Qred_correct.
Qed.

Lemma eqb_zero_iff (x : num) : eqb x (Int 0) = true <-> num_val x == 0.
Proof. unfold eqb. apply Qeq_bool_iff. Qed.

Lemma le_zero_iff (x : num) : le x (Int 0) = true <-> num_val x <= 0.
Proof. unfold le. apply Qle_bool_iff. Qed.

Lemma gt_zero_iff (x : num) : gt x (Int 0) = true <-> 0 < num_val x.
Proof.
  unfold gt. rewrite Bool.negb_true_iff.
  split.
  - intros H. apply Qnot_le_lt. intros Hle.
    change 0 with (num_val (Int 0)) in Hle.
    apply Qle_bool_iff in Hle. unfold le in H. congruence.
  - intros H. destruct (le x (Int 0)) eqn:E; [| reflexivity].
    apply le_zero_iff in E. exfalso. apply (Qlt_not_le _ _ H E).
Qed.

Lemma lt_iff (x y : num) : lt x y = true <-> num_val x < num_val y.
Proof.
  unfold lt, ge. rewrite Bool.negb_true_iff. split.
  - intros H. apply Qnot_le_lt. intros Hle. apply Qle_bool_iff in Hle. congruence.
  - intros H. destruct (Qle_bool (num_val y) (num_val x)) eqn:E; [| reflexivity].
    apply Qle_bool_iff in E. exfalso. apply (Qlt_not_le _ _ H E).
Qed.

Lemma ge_iff (x y : num) : ge x y = true <-> num_val y <= num_val x.
Proof. unfold ge. apply Qle_bool_iff. Qed.

Lemma eqb_iff (x y : num) : eqb x y = true <-> num_val x == num_val y.
Proof. unfold eqb. apply Qeq_bool_iff. Qed.

End num_facts.

(** ** operators.py, continued *)

Module operators_laws.
Import py py_facts num_facts.

Lemma inv_back_int (float_pow : Q -> nat -> result num) (a : Z) (g : num) :
  a <> 0%Z ->
  operators.inv_back float_pow (Int a) g
  = Ok (mul g (Float (Qred (inject_Z (-1) / inject_Z (a * a))))).
Proof.
  intros Ha. unfold operators.inv_back.
  assert (Hz : eqb (Int a) (Int 0) = false).
  { destruct (eqb (Int a) (Int 0)) eqn:E; [| reflexivity].
    apply eqb_zero_iff in E. cbn [num_val] in E.
    exfalso. apply Ha. apply (inject_Z_injective a 0). exact E. }
  rewrite Hz. cbn [pow bind].
  change (Z.of_nat 2) with 2%Z. rewrite Z.pow_2_r.
  assert (Hsq : eqb (Int (a * a)) (Int 0) = false).
  { destruct (eqb (Int (a * a)) (Int 0)) eqn:E; [| reflexivity].
    apply eqb_zero_iff in E. cbn [num_val] in E.
    exfalso. apply (inject_Z_injective (a * a) 0) in E.
    apply Z.mul_eq_0 in E. destruct E; contradiction. }
  rewrite (truediv_ok (Int (-1)) (Int (a * a)) Hsq). reflexivity.
Qed.

(** X1: [inv_back] tests [x == 0] before it divides, so for [0] and [0.0]
    it raises [ValueError], as [inv] does; for an [int] [x] other than [0]
    it raises nothing and returns [g * (-1 / x ** 2)], the square being the
    exact [int] square and the product taken without rounding ([g] a
    [float], or an [int] that a [float] can hold); for a [float] [x] other
    than [0.0] the square is the
    floating-point one: when it raises, [inv_back] raises the same, and
    when it has underflowed to [0.0], [inv_back] raises
    [ZeroDivisionError]. *)
Theorem inv_back_domain (float_pow : Q -> nat -> result num) (x g : num) (a : Z) :
  (num_val x == 0 ->
   operators.inv_back float_pow x g = Raise ValueError /\
   operators.inv x = Raise ValueError) /\
  (operators.inv_back float_pow (Int a) g = Raise ValueError <-> a = 0%Z) /\
  (a <> 0%Z ->
   exists r, operators.inv_back float_pow (Int a) g = Ok r /\
             num_val r == num_val g * (inject_Z (-1) / inject_Z (a * a))) /\
  (forall (q : Q) (e : exn),
     ~ q == 0 -> float_pow q 2%nat = Raise e ->
     operators.inv_back float_pow (Float q) g = Raise e) /\
  (forall (q : Q) (p : num),
     ~ q == 0 -> float_pow q 2%nat = Ok p -> num_val p == 0 ->
     operators.inv_back float_pow (Float q) g = Raise ZeroDivisionError).
Proof.
  assert (Hfloat : forall q, ~ q == 0 -> eqb (Float q) (Int 0) = false).
  { intros q Hq. destruct (eqb (Float q) (Int 0)) eqn:E; [| reflexivity].
    apply eqb_zero_iff in E. contradiction. }
  split; [| split; [| split; [| split]]].
  - intros Hx. apply eqb_zero_iff in Hx.
    unfold operators.inv_back, operators.inv. rewrite Hx. split; reflexivity.
  - split.
    + intros H. destruct (Z.eq_dec a 0) as [Ha | Ha]; [exact Ha |].
      rewrite (inv_back_int float_pow a g Ha) in H. discriminate.
    + intros ->. reflexivity.
  - intros Ha. eexists. split; [apply (inv_back_int float_pow a g Ha) |].
    rewrite num_val_mul. cbn [num_val]. rewrite Qred_correct. reflexivity.
  - intros q e Hq Hpow. unfold operators.inv_back.
    rewrite (Hfloat q Hq). cbn [pow]. rewrite Hpow. reflexivity.
  - intros q p Hq Hpow Hp. unfold operators.inv_back.
    rewrite (Hfloat q Hq). cbn [pow]. rewrite Hpow. cbn [bind].
    unfold truediv. apply eqb_zero_iff in Hp. rewrite Hp. reflexivity.
Qed.

Lemma relu_cases (x : num) :
  (le x (Int 0) = true /\ operators.relu x = Int 0) \/
  (le x (Int 0) = false /\ operators.relu x = x).
Proof.
  unfold operators.relu, operators.max.
  change (ge (Int 0) x) with (le x (Int 0)).
  destruct (le x (Int 0)); [left | right]; split; reflexivity.
Qed.

(** X2: [relu] and [relu_back] switch at the same point: for [x > 0],
    [relu x] is [x] itself and [relu_back x g] is [g]; for [x <= 0], zero
    included, [relu x] is the [int] [0] and so is [relu_back x g].  [relu]
    is never negative, and applying it twice is applying it once. *)
Theorem relu_and_relu_back_switch (x g : num) :
  (0 < num_val x -> operators.relu x = x /\ operators.relu_back x g = g) /\
  (num_val x <= 0 ->
   operators.relu x = Int 0 /\ operators.relu_back x g = Int 0) /\
  0 <= num_val (operators.relu x) /\
  operators.relu (operators.relu x) = operators.relu x.
Proof.
  unfold operators.relu_back, gt.
  destruct (relu_cases x) as [[E H] | [E H]]; rewrite H, E; cbn [negb].
  - apply le_zero_iff in E.
    split; [| split; [| split]].
    + intros Hpos. exfalso. apply (Qlt_not_le _ _ Hpos E).
    + intros _. split; reflexivity.
    + apply Qle_refl.
    + reflexivity.
  - assert (Hpos : 0 < num_val x).
    { apply gt_zero_iff. unfold gt. rewrite E. reflexivity. }
    split; [| split; [| split]].
    + intros _. split; reflexivity.
    + intros Hle. exfalso. apply (Qlt_not_le _ _ Hpos Hle).
    + apply Qlt_le_weak. exact Hpos.
    + exact H.
Qed.

(** X3: for [x > 0], [log_back x g] is [g] times what [inv x] returns; for
    [x < 0], [inv x] still returns and [log_back x g] raises. *)
Theorem log_back_scales_inv (x g : num) :
  (0 < num_val x ->
   exists r, operators.inv x = Ok r /\ operators.log_back x g = Ok (mul g r)) /\
  (num_val x < 0 ->
   (exists r, operators.inv x = Ok r) /\
   operators.log_back x g = Raise ValueError).
Proof.
  split.
  - intros Hpos.
    assert (Hle : le x (Int 0) = false).
    { destruct (le x (Int 0)) eqn:E; [| reflexivity].
      apply le_zero_iff in E. exfalso. apply (Qlt_not_le _ _ Hpos E). }
    assert (Hz : eqb x (Int 0) = false).
    { destruct (eqb x (Int 0)) eqn:E; [| reflexivity].
      apply le_zero_of_eqb_zero in E. congruence. }
    unfold operators.inv, operators.log_back. rewrite Hle, Hz.
    rewrite (truediv_ok (Int 1) x Hz).
    eexists. split; reflexivity.
  - intros Hneg.
    assert (Hle : le x (Int 0) = true).
    { apply le_zero_iff. apply Qlt_le_weak. exact Hneg. }
    assert (Hz : eqb x (Int 0) = false).
    { destruct (eqb x (Int 0)) eqn:E; [| reflexivity].
      apply eqb_zero_iff in E. rewrite E in Hneg.
      exfalso. apply (Qlt_irrefl _ Hneg). }
    unfold operators.inv, operators.log_back. rewrite Hle, Hz.
    rewrite (truediv_ok (Int 1) x Hz).
    split; [eexists; reflexivity | reflexivity].
Qed.

(** X4: for [int]s and finite [float]s, compared with each other in any
    combination, exactly one of [lt x y], [eq x y] and [lt y x] holds.  (A
    [nan] is not a number of this file: it compares false with
    everything.) *)
Theorem lt_eq_trichotomy (x y : num) :
  (operators.lt x y = true /\ operators.eq x y = false /\ operators.lt y x = false) \/
  (operators.lt x y = false /\ operators.eq x y = true /\ operators.lt y x = false) \/
  (operators.lt x y = false /\ operators.eq x y = false /\ operators.lt y x = true).
Proof.
  unfold operators.lt, operators.eq.
  assert (Hlt : forall a b, lt a b = false <-> ~ num_val a < num_val b).
  { intros a b. rewrite <- lt_iff. destruct (lt a b); split; intros; congruence. }
  assert (Heq : eqb x y = false <-> ~ num_val x == num_val y).
  { rewrite <- eqb_iff. destruct (eqb x y); split; intros; congruence. }
  destruct (Q_dec (num_val x) (num_val y)) as [[Hxy | Hyx] | Hxy].
  - left. split; [apply lt_iff; exact Hxy |]. split.
    + apply Heq. intros H. rewrite H in Hxy. apply (Qlt_irrefl _ Hxy).
    + apply Hlt. intros H. apply (Qlt_irrefl _ (Qlt_trans _ _ _ Hxy H)).
  - right. right. split; [| split].
    + apply Hlt. intros H. apply (Qlt_irrefl _ (Qlt_trans _ _ _ Hyx H)).
    + apply Heq. intros H. rewrite H in Hyx. apply (Qlt_irrefl _ Hyx).
    + apply lt_iff. exact Hyx.
  - right. left. split; [| split].
    + apply Hlt. rewrite Hxy. apply Qlt_irrefl.
    + apply eqb_iff. exact Hxy.
    + apply Hlt. rewrite Hxy. apply Qlt_irrefl.
Qed.

(** X5: for [int]s and finite [float]s, [max x y] is the least upper
    bound of [x] and [y]: whatever is greater than or equal to both is
    greater than or equal to it; swapping the operands, or regrouping three
    of them, gives a number of the same value.  (A [nan] is not a number of
    this file.) *)
Theorem max_least_upper_bound (x y z : num) :
  (ge z x = true -> ge z y = true -> ge z (operators.max x y) = true) /\
  eqb (operators.max x y) (operators.max y x) = true /\
  eqb (operators.max (operators.max x y) z)
      (operators.max x (operators.max y z)) = true.
Proof.
  assert (Hmax : forall a b,
             num_val (operators.max a b) == Qmax (num_val a) (num_val b)).
  { intros a b. unfold operators.max.
    destruct (ge a b) eqn:E.
    - apply ge_iff in E. symmetry. apply Q.max_l. exact E.
    - apply ge_total in E. apply ge_iff in E.
      symmetry. apply Q.max_r. exact E. }
  split; [| split].
  - intros Hx Hy. unfold operators.max. destruct (ge x y); assumption.
  - apply eqb_iff. rewrite (Hmax x y), (Hmax y x). apply Q.max_comm.
  - apply eqb_iff.
    rewrite (Hmax (operators.max x y) z), (Hmax x y).
    rewrite (Hmax x (operators.max y z)), (Hmax y z).
    symmetry. apply Q.max_assoc.
Qed.

Lemma reduce_loop_app {A B : Type} (f : A -> B -> A) (l1 l2 : list B) (ans : A) :
  operators.reduce_loop f ans (l1 ++ l2)
  = operators.reduce_loop f (operators.reduce_loop f ans l1) l2.
Proof.
  revert ans. induction l1 as [| item rest IH]; intros ans; simpl.
  - reflexivity.
  - apply IH.
Qed.

(** X6: reducing a concatenation is reducing the second part from the
    result of the first: a sequence can be reduced piece by piece. *)
Theorem reduce_append {A B : Type} (f : A -> B -> A) (start : A) (l1 l2 : list B) :
  operators.reduce f start (l1 ++ l2)
  = operators.reduce f (operators.reduce f start l1) l2.
Proof. unfold operators.reduce. apply reduce_loop_app. Qed.

Lemma add_loop_ints (zs : list Z) (a : Z) :
  operators.reduce_loop operators.add (Int a) (List.map Int zs)
  = Int (a + fold_right Z.add 0%Z zs).
Proof.
  revert a. induction zs as [| z rest IH]; intros a; cbn [List.map fold_right operators.reduce_loop].
  - rewrite Z.add_0_r. reflexivity.
  - cbn [operators.add add]. rewrite IH. rewrite Z.add_assoc. reflexivity.
Qed.

Lemma mul_loop_ints (zs : list Z) (a : Z) :
  operators.reduce_loop operators.mul (Int a) (List.map Int zs)
  = Int (a * fold_right Z.mul 1%Z zs).
Proof.
  revert a. induction zs as [| z rest IH]; intros a; cbn [List.map fold_right operators.reduce_loop].
  - rewrite Z.mul_1_r. reflexivity.
  - cbn [operators.mul mul]. rewrite IH. rewrite Z.mul_assoc. reflexivity.
Qed.

Lemma fold_add_app (a b : list Z) :
  fold_right Z.add 0%Z (a ++ b)
  = (fold_right Z.add 0%Z a + fold_right Z.add 0%Z b)%Z.
Proof.
  induction a as [| z rest IH]; cbn [app fold_right]; [reflexivity |].
  rewrite IH. apply Z.add_assoc.
Qed.

Lemma fold_mul_app (a b : list Z) :
  fold_right Z.mul 1%Z (a ++ b)
  = (fold_right Z.mul 1%Z a * fold_right Z.mul 1%Z b)%Z.
Proof.
  induction a as [| z rest IH]; cbn [app fold_right].
  - rewrite Z.mul_1_l. reflexivity.
  - rewrite IH. apply Z.mul_assoc.
Qed.

Lemma sum_ints (zs : list Z) :
  operators.sum (List.map Int zs) = Int (fold_right Z.add 0%Z zs).
Proof.
  unfold operators.sum, operators.reduce. rewrite add_loop_ints.
  rewrite Z.add_0_l. reflexivity.
Qed.

Lemma prod_ints (zs : list Z) :
  operators.prod (List.map Int zs) = Int (fold_right Z.mul 1%Z zs).
Proof.
  unfold operators.prod, operators.reduce. rewrite mul_loop_ints.
  rewrite Z.mul_1_l. reflexivity.
Qed.

(** X7: on a list of [int]s, [sum] is the [int] sum and [prod] the [int]
    product of the elements, [0] and [1] on the empty list; the sum
    (product) of a concatenation is the sum (product) of the two results. *)
Theorem sum_prod_of_ints (zs ws : list Z) :
  operators.sum (List.map Int zs) = Int (fold_right Z.add 0%Z zs) /\
  operators.prod (List.map Int zs) = Int (fold_right Z.mul 1%Z zs) /\
  operators.sum (List.map Int (zs ++ ws))
  = operators.add (operators.sum (List.map Int zs)) (operators.sum (List.map Int ws)) /\
  operators.prod (List.map Int (zs ++ ws))
  = operators.mul (operators.prod (List.map Int zs)) (operators.prod (List.map Int ws)).
Proof.
  split; [apply sum_ints |]. split; [apply prod_ints |]. split.
  - rewrite !sum_ints. cbn [operators.add add]. rewrite fold_add_app. reflexivity.
  - rewrite !prod_ints. cbn [operators.mul mul]. rewrite fold_mul_app. reflexivity.
Qed.

Lemma negList_ints (zs : list Z) :
  operators.negList (List.map Int zs) = List.map Int (List.map Z.opp zs).
Proof.
  unfold operators.negList, operators.map. rewrite !List.map_map. reflexivity.
Qed.

Lemma fold_add_opp (zs : list Z) :
  fold_right Z.add 0%Z (List.map Z.opp zs) = (- fold_right Z.add 0%Z zs)%Z.
Proof.
  induction zs as [| z rest IH]; cbn [List.map fold_right]; [reflexivity |].
  rewrite IH. rewrite Z.opp_add_distr. reflexivity.
Qed.

(** X8: [negList] keeps the length and negates each element in place;
    negating twice gives back numbers of the same value, and on [int]s the
    very same list; the sum of the negated [int]s is the negated sum. *)
Theorem negList_involutive (l : list num) (zs : list Z) :
  List.length (operators.negList l) = List.length l /\
  (forall i : nat,
     nth_error (operators.negList l) i = option_map operators.neg (nth_error l i)) /\
  Forall2 (fun a b => eqb a b = true) (operators.negList (operators.negList l)) l /\
  operators.negList (operators.negList (List.map Int zs)) = List.map Int zs /\
  operators.sum (operators.negList (List.map Int zs))
  = operators.neg (operators.sum (List.map Int zs)).
Proof.
  split; [apply List.length_map |].
  split; [intros i; apply nth_error_map |].
  split; [| split].
  - unfold operators.negList, operators.map.
    induction l as [| x rest IH]; cbn [List.map]; constructor; [| exact IH].
    apply eqb_iff. unfold operators.neg. rewrite !num_val_neg.
    apply Qopp_involutive.
  - rewrite (negList_ints zs), (negList_ints (List.map Z.opp zs)). f_equal.
    rewrite List.map_map.
    transitivity (List.map (fun z : Z => z) zs); [| apply List.map_id].
    apply List.map_ext. intros z. apply Z.opp_involutive.
  - rewrite negList_ints.
    rewrite !sum_ints.
    cbn [operators.neg neg]. rewrite fold_add_opp. reflexivity.
Qed.

Lemma add_comm (x y : num) : add x y = add y x.
Proof.
  destruct x as [a | p], y as [b | q]; cbn [add num_val].
  - rewrite Z.add_comm. reflexivity.
  - f_equal. apply Qred_complete. apply Qplus_comm.
  - f_equal. apply Qred_complete. apply Qplus_comm.
  - f_equal. apply Qred_complete. apply Qplus_comm.
Qed.

Lemma zipWith_flip {A B C : Type} (f : A -> B -> C) (l1 : list A) (l2 : list B) :
  operators.zipWith f l1 l2 = operators.zipWith (fun y x => f x y) l2 l1.
Proof.
  unfold operators.zipWith.
  revert l2. induction l1 as [| x r1 IH]; intros [| y r2]; cbn [zip List.map];
    try reflexivity.
  f_equal. apply IH.
Qed.

Lemma addLists_ints (a b : list Z) :
  operators.addLists (List.map Int a) (List.map Int b)
  = List.map Int (List.map (fun '(x, y) => (x + y)%Z) (zip a b)).
Proof.
  unfold operators.addLists, operators.zipWith.
  revert b. induction a as [| x r1 IH]; intros [| y r2]; cbn [zip List.map];
    try reflexivity.
  f_equal. apply IH.
Qed.

Lemma fold_add_zip (a b : list Z) :
  List.length a = List.length b ->
  fold_right Z.add 0%Z (List.map (fun '(x, y) => (x + y)%Z) (zip a b))
  = (fold_right Z.add 0%Z a + fold_right Z.add 0%Z b)%Z.
Proof.
  revert b. induction a as [| x r1 IH]; intros [| y r2] Hlen;
    cbn [zip List.map fold_right]; try discriminate; [reflexivity |].
  injection Hlen as Hlen. rewrite (IH r2 Hlen).
  rewrite <- !Z.add_assoc. f_equal.
  rewrite !Z.add_assoc. f_equal. apply Z.add_comm.
Qed.

(** X9: [addLists] does not depend on the order of its two arguments, and
    an exhausted argument ends it: with an empty list the result is empty. *)
Theorem addLists_commutes (l1 l2 : list num) :
  operators.addLists l1 l2 = operators.addLists l2 l1 /\
  operators.addLists l1 [] = [] /\
  operators.addLists [] l2 = [].
Proof.
  split; [| split].
  - unfold operators.addLists. rewrite zipWith_flip.
    unfold operators.zipWith. apply List.map_ext.
    intros [x y]. unfold operators.add. apply add_comm.
  - destruct l1; reflexivity.
  - reflexivity.
Qed.

(** X10: for two lists of [int]s of the same length, the sum of
    [addLists] is the sum of the two sums. *)
Theorem sum_addLists_ints (a b : list Z) :
  List.length a = List.length b ->
  operators.sum (operators.addLists (List.map Int a) (List.map Int b))
  = operators.add (operators.sum (List.map Int a)) (operators.sum (List.map Int b)).
Proof.
  intros Hlen. rewrite addLists_ints.
  rewrite !sum_ints.
  cbn [operators.add add]. rewrite (fold_add_zip a b Hlen). reflexivity.
Qed.

Lemma sum_addLists_ints_witness :
  List.length [1; 2; 3]%Z = List.length [10; 20; 30]%Z /\
  operators.sum
    (operators.addLists (List.map Int [1; 2; 3]%Z) (List.map Int [10; 20; 30]%Z))
  = operators.add (operators.sum (List.map Int [1; 2; 3]%Z))
      (operators.sum (List.map Int [10; 20; 30]%Z)).
Proof.
  split.
  - reflexivity.
  - apply (sum_addLists_ints [1; 2; 3]%Z [10; 20; 30]%Z). reflexivity.
Defined.

End operators_laws.

(** ** module.py, continued *)

Module module_laws.
Import py py_facts module module_facts.

(** *** Dictionaries *)

Section DictLaws.
Context {V : Type}.
Implicit Types (d : dict V) (key k : string) (v : V).

Lemma keys_setitem d key v :
  keys (setitem d key v) = if contains key d then keys d else keys d ++ [key].
Proof.
  induction d as [| [k w] rest IH]; cbn [setitem contains keys List.map fst app].
  - reflexivity.
  - destruct (String.eqb key k) eqn:E; cbn [List.map fst].
    + reflexivity.
    + unfold keys in IH. rewrite IH.
      destruct (contains key rest); reflexivity.
Qed.

Lemma get_map_values {W : Type} (g : V -> W) d key :
  get key (List.map (fun '(k, x) => (k, g x)) d) = option_map g (get key d).
Proof.
  induction d as [| [k x] rest IH]; cbn [List.map get]; [reflexivity |].
  destruct (String.eqb key k); [reflexivity | exact IH].
Qed.

Lemma keys_map_values {W : Type} (g : string -> V -> W) d :
  keys (List.map (fun '(k, x) => (k, g k x)) d) = keys d.
Proof.
  unfold keys. rewrite List.map_map. apply List.map_ext. intros [k x]. reflexivity.
Qed.

End DictLaws.

(** *** Parameter *)

(** X11: a [Parameter_] keeps the name it was built with, through every
    [update]; an [update] is the construction of the parameter anew under
    that name, so that the last [update] wins; a payload without
    [requires_grad_] is stored as it is; a variable is stored with
    [requires_grad] set, its data untouched, and its own name replaced by
    the parameter's name unless that name is [None] or the empty string. *)
Theorem parameter_value_invariant (p : Parameter_) (x y : payload) (n : option string) :
  name (Parameter___init__ x n) = n /\
  name (update p x) = name p /\
  update p x = Parameter___init__ x (name p) /\
  update (update p x) y = update p y /\
  (forall z : num, value (Parameter___init__ (Opaque z) n) = Opaque z) /\
  (forall v : Var,
     value (Parameter___init__ (Tracked v) n)
     = Tracked (mkVar (var_data v) true
                  match n with
                  | Some s => if String.eqb s "" then var_name v else Some s
                  | None => var_name v
                  end)).
Proof.
  split; [reflexivity |]. split; [reflexivity |]. split; [reflexivity |].
  split; [reflexivity |]. split; [reflexivity |].
  intros v. cbn [Parameter___init__ value mark truthy].
  destruct n as [s |]; cbn [truthy]; [| reflexivity].
  destruct (String.eqb s ""); reflexivity.
Qed.

(** *** Registration and lookup *)

Lemma getattr_other_parameter (self : Module) (k key : string) (v : payload) :
  String.eqb key k = false ->
  __getattr__ (fst (add_parameter self k v)) key = __getattr__ self key.
Proof.
  intros Hne. rewrite !getattr_spec.
  cbn [add_parameter fst _parameters _modules].
  rewrite (get_setitem_other _ k key _ Hne). reflexivity.
Qed.

Lemma getattr_other_module (self : Module) (k key : string) (c : Module) :
  String.eqb key k = false ->
  __getattr__ (add_module self k c) key = __getattr__ self key.
Proof.
  intros Hne. rewrite !getattr_spec.
  cbn [add_module _parameters _modules].
  rewrite (get_setitem_other _ k key _ Hne). reflexivity.
Qed.

(** X12: a child registered under a name that is not a parameter name is
    what the lookup of that name returns; under a name that is a parameter
    name the child is stored, yet the lookup goes on returning the
    parameter; and registering a parameter or a child under one name
    changes the lookup of no other name. *)
Theorem lookup_after_registration (self : Module) (k : string) (c : Module) (v : payload) :
  (contains k (_parameters self) = false ->
   __getattr__ (add_module self k c) k = Ok (AModule c)) /\
  (contains k (_parameters self) = true ->
   get k (_modules (add_module self k c)) = Some c /\
   __getattr__ (add_module self k c) k = __getattr__ self k) /\
  (forall key : string,
     key <> k ->
     __getattr__ (add_module self k c) key = __getattr__ self key /\
     __getattr__ (fst (add_parameter self k v)) key = __getattr__ self key).
Proof.
  split; [| split].
  - intros Hp. rewrite getattr_spec. cbn [add_module _parameters _modules].
    rewrite contains_get in Hp.
    destruct (get k (_parameters self)); [discriminate |].
    rewrite get_setitem_same. reflexivity.
  - intros Hp. split.
    + cbn [add_module _modules]. apply get_setitem_same.
    + rewrite !getattr_spec. cbn [add_module _parameters _modules].
      rewrite contains_get in Hp.
      destruct (get k (_parameters self)); [reflexivity | discriminate].
  - intros key Hne. apply String.eqb_neq in Hne. split.
    + apply getattr_other_module. exact Hne.
    + apply getattr_other_parameter. exact Hne.
Qed.

Lemma setitem_present_names {V : Type} (d : dict V) (k : string) (v : V) (prefix : string) :
  List.map (fun '(name, _) => (prefix ++ name)%string) (setitem d k v)
  = List.map (fun '(name, _) => (prefix ++ name)%string) d
    ++ (if contains k d then [] else [(prefix ++ k)%string]).
Proof.
  induction d as [| [k' w] rest IH]; cbn [setitem contains List.map app].
  - reflexivity.
  - destruct (String.eqb k k') eqn:E; cbn [List.map app].
    + rewrite app_nil_r. reflexivity.
    + rewrite IH. reflexivity.
Qed.

(** X13: registration keeps the insertion order.  A new name goes to the
    end of its mapping, a name that is present keeps its place and only its
    value changes; so [modules()] grows at the end, and registering a
    parameter again under its name leaves the names that
    [named_parameters] lists, and their order, as they were. *)
Theorem registration_keeps_order (self : Module) (k : string) (v : payload) (c : Module) :
  keys (_parameters (fst (add_parameter self k v)))
  = (if contains k (_parameters self) then keys (_parameters self)
     else keys (_parameters self) ++ [k]) /\
  keys (_modules (add_module self k c))
  = (if contains k (_modules self) then keys (_modules self)
     else keys (_modules self) ++ [k]) /\
  (contains k (_modules self) = false ->
   modules (add_module self k c) = modules self ++ [c]) /\
  (contains k (_parameters self) = true ->
   List.map fst (named_parameters (fst (add_parameter self k v)))
   = List.map fst (named_parameters self)).
Proof.
  split; [apply keys_setitem |]. split; [apply keys_setitem |]. split.
  - intros Hnew. unfold modules, values. cbn [add_module _modules].
    induction (_modules self) as [| [k' w] rest IH]; [reflexivity |].
    cbn [contains] in Hnew. cbn [setitem].
    destruct (String.eqb k k'); [discriminate |].
    cbn [List.map snd app]. f_equal. apply IH. exact Hnew.
  - intros Hold. unfold named_parameters.
    rewrite !_named_parameters_unfold. unfold items.
    cbn [add_parameter fst _parameters _modules].
    rewrite !List.map_app. f_equal.
    rewrite !List.map_map.
    transitivity (List.map (fun '(name, _) => ("" ++ name)%string)
                    (setitem (_parameters self) k (Parameter___init__ v (Some k)))).
    { apply List.map_ext. intros [n q]. reflexivity. }
    rewrite setitem_present_names, Hold, app_nil_r.
    apply List.map_ext. intros [n q]. reflexivity.
Qed.

(** *** What [named_parameters] lists *)

Lemma named_parameters_sound (self : Module) :
  forall (prefix q : string) (p : Parameter_),
    In (q, p) (_named_parameters self prefix) ->
    exists (path : list string) (target : Module) (name : string),
      reach self path target /\
      In (name, p) (_parameters target) /\
      q = (prefix ++ qualified path name)%string.
Proof.
  induction self as [ms ps fs fw IH] using Module_tree_ind.
  intros prefix q p Hin. rewrite _named_parameters_unfold in Hin.
  unfold items in Hin. cbn [_parameters _modules] in Hin.
  apply in_app_or in Hin. destruct Hin as [Hown | Hchild].
  - apply in_map_iff in Hown. destruct Hown as ([n p'] & Heq & Hin).
    injection Heq as <- <-.
    exists [], (mkModule ms ps fs fw), n.
    split; [reflexivity |]. split; [exact Hin | reflexivity].
  - apply in_flat_map in Hchild. destruct Hchild as ([k child] & Hk & Hin).
    rewrite Forall_forall in IH.
    destruct (IH (k, child) Hk _ _ _ Hin) as (path & target & n & Hreach & Hp & Hq).
    exists (k :: path), target, n.
    split; [| split].
    + cbn [reach _modules]. exists child. split; assumption.
    + exact Hp.
    + rewrite Hq. cbn [qualified]. rewrite !append_assoc. reflexivity.
Qed.

Lemma named_parameters_complete (path : list string) :
  forall (self target : Module) (prefix name : string) (p : Parameter_),
    reach self path target ->
    In (name, p) (_parameters target) ->
    In ((prefix ++ qualified path name)%string, p) (_named_parameters self prefix).
Proof.
  induction path as [| k rest IH]; intros self target prefix name p Hreach Hin.
  - cbn [reach] in Hreach. subst target. apply named_parameters_own. exact Hin.
  - cbn [reach] in Hreach. destruct Hreach as (child & Hchild & Hreach).
    apply (named_parameters_child self child prefix k); [exact Hchild |].
    cbn [qualified]. rewrite <- !append_assoc. rewrite (append_assoc prefix k ".").
    apply (IH child target _ name p Hreach Hin).
Qed.

(** X15: [named_parameters] lists nothing but the parameters of the tree
    and misses none: a pair is in the list exactly when its parameter is
    registered in a module reached from the root through registered
    children, and its name is the names of those children and the
    parameter's own name, joined by dots. *)
Theorem named_parameters_exact (self : Module) (q : string) (p : Parameter_) :
  In (q, p) (named_parameters self) <->
  exists (path : list string) (target : Module) (name : string),
    reach self path target /\
    In (name, p) (_parameters target) /\
    q = qualified path name.
Proof.
  unfold named_parameters. split.
  - intros Hin. apply named_parameters_sound in Hin. exact Hin.
  - intros (path & target & name & Hreach & Hin & ->).
    apply (named_parameters_complete path self target "" name p Hreach Hin).
Qed.

Lemma named_parameters_count (self : Module) :
  forall prefix : string,
    List.length (_named_parameters self prefix)
    = list_sum (List.map (fun m => List.length (_parameters m)) (descendants self)).
Proof.
  induction self as [ms ps fs fw IH] using Module_tree_ind.
  intros prefix. rewrite _named_parameters_unfold. unfold items.
  cbn [_parameters _modules descendants List.map list_sum fold_right].
  rewrite List.length_app, List.length_map. f_equal.
  induction IH as [| [k child] rest Hchild _ IHrest]; cbn [List.flat_map];
    [reflexivity |].
  rewrite List.length_app, List.map_app, list_sum_app, IHrest. f_equal.
  apply Hchild.
Qed.

(** X16: [parameters()] and [named_parameters()] have the same length, the
    [i]-th parameter of the first is the parameter of the [i]-th pair of
    the second, and that length is the number of parameters registered in
    the module and in its descendants, all counted. *)
Theorem parameters_match_named (self : Module) :
  List.length (parameters self) = List.length (named_parameters self) /\
  (forall i : nat,
     nth_error (parameters self) i = option_map snd (nth_error (named_parameters self) i)) /\
  List.length (parameters self)
  = list_sum (List.map (fun m => List.length (_parameters m)) (descendants self)).
Proof.
  unfold parameters. split; [apply List.length_map |]. split.
  - intros i. rewrite nth_error_map.
    destruct (nth_error (named_parameters self) i) as [[n p] |]; reflexivity.
  - rewrite List.length_map. apply named_parameters_count.
Qed.

(** *** Training mode, continued *)

Lemma map_values_ext (f g : string -> Module -> Module) (ms : dict Module) :
  Forall (fun kc : string * Module => f (fst kc) (snd kc) = g (fst kc) (snd kc)) ms ->
  List.map (fun '(k, c) => (k, f k c)) ms = List.map (fun '(k, c) => (k, g k c)) ms.
Proof.
  induction 1 as [| [k c] rest Hkc _ IH]; cbn [List.map]; [reflexivity |].
  cbn [fst snd] in Hkc. rewrite Hkc, IH. reflexivity.
Qed.

(** The tree that [_set_mode_recursive] leaves does not depend on the path
    the call is given: the path only names the entries of the log. *)
Lemma set_mode_path_irrelevant (mode : bool) (self : Module) :
  forall p q : list string,
    fst (_set_mode_recursive mode p self) = fst (_set_mode_recursive mode q self).
Proof.
  induction self as [ms ps fs fw IH] using Module_tree_ind.
  intros p q. rewrite !_set_mode_recursive_unfold.
  cbn [fst _modules _parameters fields cls_forward]. f_equal.
  apply (map_values_ext
           (fun k c => fst (_set_mode_recursive mode (p ++ [k]) c))
           (fun k c => fst (_set_mode_recursive mode (q ++ [k]) c))).
  apply (Forall_impl _ (P := fun kc : string * Module =>
                          forall p q, fst (_set_mode_recursive mode p (snd kc))
                                      = fst (_set_mode_recursive mode q (snd kc))));
    [| exact IH].
  intros [k c] H. cbn [fst snd] in *. apply H.
Qed.

(** The state after a call, child by child. *)
Lemma set_mode_state (mode : bool) (self : Module) (p : list string) :
  fst (_set_mode_recursive mode p self) =
  mkModule
    (List.map (fun '(k, c) => (k, fst (_set_mode_recursive mode [] c))) (_modules self))
    (_parameters self)
    (setitem (fields self) "training" (PBool mode))
    (cls_forward self).
Proof.
  rewrite _set_mode_recursive_unfold. cbn [fst]. f_equal.
  apply (map_values_ext
           (fun k c => fst (_set_mode_recursive mode (p ++ [k]) c))
           (fun _ c => fst (_set_mode_recursive mode [] c))).
  apply Forall_forall. intros [k c] _. cbn [fst snd].
  apply set_mode_path_irrelevant.
Qed.

Lemma set_mode_twice (self : Module) :
  forall a b : bool,
    fst (_set_mode_recursive b [] (fst (_set_mode_recursive a [] self)))
    = fst (_set_mode_recursive b [] self).
Proof.
  induction self as [ms ps fs fw IH] using Module_tree_ind.
  intros a b.
  rewrite (set_mode_state a (mkModule ms ps fs fw) []).
  rewrite !(set_mode_state b _ []).
  cbn [_modules _parameters fields cls_forward]. f_equal.
  - rewrite List.map_map.
    induction IH as [| [k c] rest Hc _ IHrest]; cbn [List.map]; [reflexivity |].
    cbn [snd] in Hc. rewrite Hc, IHrest. reflexivity.
  - apply setitem_setitem.
Qed.

(** X17: the last mode wins, for the whole tree and for everything in it:
    [eval] after [train] leaves the very tree that [eval] alone leaves,
    [train] after [eval] the tree that [train] alone leaves, and either
    call twice is that call once. *)
Theorem last_mode_wins (self : Module) :
  eval (train self) = eval self /\
  train (eval self) = train self /\
  train (train self) = train self /\
  eval (eval self) = eval self.
Proof.
  unfold train, eval. repeat split; apply set_mode_twice.
Qed.

Lemma get_setitem_neq {V : Type} (d : dict V) (k key : string) (v : V) :
  key <> k -> get key (setitem d k v) = get key d.
Proof.
  intros Hne. apply get_setitem_other. apply String.eqb_neq. exact Hne.
Qed.

(** X18: [train] and [eval] change the field [training] and no other
    state.  The parameters that [named_parameters] and [parameters] list,
    the names of the children, the parameter mapping and every field other
    than [training] are what they were. *)
Theorem mode_changes_nothing_else (self : Module) (mode : bool) :
  let after := fst (_set_mode_recursive mode [] self) in
  (if mode then train self else eval self) = after /\
  named_parameters after = named_parameters self /\
  parameters after = parameters self /\
  keys (_modules after) = keys (_modules self) /\
  _parameters after = _parameters self /\
  (forall key : string,
     key <> "training" -> get key (fields after) = get key (fields self)).
Proof.
  cbv zeta.
  assert (Hnp : named_parameters (fst (_set_mode_recursive mode [] self))
                = named_parameters self).
  { unfold named_parameters. apply (set_mode_spec mode self []). }
  split; [destruct mode; reflexivity |].
  split; [exact Hnp |].
  split; [unfold parameters; rewrite Hnp; reflexivity |].
  rewrite set_mode_state. cbn [_modules _parameters fields].
  split; [| split; [reflexivity |]].
  - apply (keys_map_values (fun _ c => fst (_set_mode_recursive mode [] c))).
  - intros key Hne. apply get_setitem_neq. exact Hne.
Qed.

Lemma set_mode_resolve (mode : bool) (path : list string) :
  forall self : Module,
    resolve (fst (_set_mode_recursive mode [] self)) path
    = option_map (fun m => fst (_set_mode_recursive mode [] m)) (resolve self path).
Proof.
  induction path as [| k rest IH]; intros self; [reflexivity |].
  cbn [resolve]. rewrite set_mode_state at 1. cbn [_modules].
  rewrite (get_map_values (fun c => fst (_set_mode_recursive mode [] c))).
  destruct (get k (_modules self)) as [child |]; cbn [option_map]; [| reflexivity].
  apply IH.
Qed.

(** X19: setting the mode and walking down the tree commute: the module
    that a path leads to after [train] is [train] of the module the path
    led to before, and it is in training mode; the same for [eval]; and a
    path that led nowhere still leads nowhere. *)
Theorem mode_reaches_every_path (self : Module) (path : list string) :
  resolve (train self) path = option_map train (resolve self path) /\
  resolve (eval self) path = option_map eval (resolve self path) /\
  (forall target : Module,
     resolve self path = Some target ->
     exists after : Module,
       resolve (train self) path = Some after /\
       training after = Some (PBool true)) /\
  (forall target : Module,
     resolve self path = Some target ->
     exists after : Module,
       resolve (eval self) path = Some after /\
       training after = Some (PBool false)).
Proof.
  assert (Htr : forall mode m,
             training (fst (_set_mode_recursive mode [] m)) = Some (PBool mode)).
  { intros mode m. rewrite set_mode_state. unfold training. cbn [fields].
    apply get_setitem_same. }
  unfold train, eval.
  split; [apply (set_mode_resolve true) |].
  split; [apply (set_mode_resolve false) |].
  split.
  - intros target Hres. eexists. split.
    + rewrite (set_mode_resolve true), Hres. reflexivity.
    + apply Htr.
  - intros target Hres. eexists. split.
    + rewrite (set_mode_resolve false), Hres. reflexivity.
    + apply Htr.
Qed.

End module_laws.

(** ** operators.py: closeness *)

Module is_close_laws.
Import py py_facts num_facts.

Lemma num_val_abs_sub (x y : num) :
  num_val (abs (sub x y)) == Qabs (num_val x - num_val y).
Proof.
  destruct x as [a | p], y as [b | q]; cbn [sub abs num_val];
    try (rewrite !Qred_correct; reflexivity).
  unfold Qminus. rewrite <- inject_Z_opp, <- inject_Z_plus. reflexivity.
Qed.

Lemma is_close_iff (x y : num) :
  operators.is_close x y = true
  <-> Qabs (num_val x - num_val y) < num_val float_1e_5.
Proof.
  unfold operators.is_close. rewrite lt_iff, num_val_abs_sub. reflexivity.
Qed.

Lemma threshold_bounds : 0 < num_val float_1e_5 /\ num_val float_1e_5 < 1.
Proof. split; reflexivity. Qed.

Lemma is_close_ints (a b : Z) : operators.is_close (Int a) (Int b) = Z.eqb a b.
Proof.
  destruct threshold_bounds as [Hpos Hone].
  destruct (Z.eqb a b) eqn:E.
  - apply Z.eqb_eq in E. subst b. apply is_close_iff.
    assert (Hz : num_val (Int a) - num_val (Int a) == 0) by ring.
    rewrite Hz. exact Hpos.
  - apply Z.eqb_neq in E.
    destruct (operators.is_close (Int a) (Int b)) eqn:C; [| reflexivity].
    exfalso. apply is_close_iff in C. rewrite <- num_val_abs_sub in C.
    cbn [sub abs num_val] in C.
    assert (H1 : inject_Z 1 <= inject_Z (Z.abs (a - b))).
    { rewrite <- Zle_Qle. lia. }
    apply (Qlt_irrefl (inject_Z (Z.abs (a - b)))).
    apply (Qlt_trans _ _ _ C). apply (Qlt_le_trans _ 1); [exact Hone | exact H1].
Qed.

(** X20: two [int]s are close exactly when they are equal: the difference
    of two different [int]s is at least [1], far above [1e-5].  On [int]s,
    then, [is_close] is [eq]; it holds between an [int] and itself and does
    not depend on the order of its arguments. *)
Theorem is_close_on_ints (a b : Z) :
  operators.is_close (Int a) (Int b) = Z.eqb a b /\
  operators.is_close (Int a) (Int b) = operators.eq (Int a) (Int b) /\
  operators.is_close (Int a) (Int a) = true /\
  operators.is_close (Int a) (Int b) = operators.is_close (Int b) (Int a).
Proof.
  split; [apply is_close_ints |]. split; [| split].
  - rewrite is_close_ints. unfold operators.eq.
    destruct (Z.eqb a b) eqn:E.
    + apply Z.eqb_eq in E. subst b. symmetry. apply eqb_iff. reflexivity.
    + apply Z.eqb_neq in E.
      destruct (eqb (Int a) (Int b)) eqn:Q; [| reflexivity].
      apply eqb_iff in Q. cbn [num_val] in Q.
      apply (proj1 (inject_Z_injective a b)) in Q. contradiction.
  - rewrite is_close_ints. apply Z.eqb_refl.
  - rewrite !is_close_ints. apply Z.eqb_sym.
Qed.

End is_close_laws.

(** ** module.py: rendering *)

Module repr_laws.
Import py py_facts module module_facts.

Local Open Scope string_scope.

Lemma append_nil_r (s : string) : s ++ "" = s.
Proof. induction s as [| c s IH]; simpl; [reflexivity | rewrite IH; reflexivity]. Qed.

Lemma split_lines_cons (s : string) : exists h t, split_lines s = h :: t.
Proof.
  induction s as [| c s (h & t & IH)]; cbn [split_lines].
  - eexists _, _. reflexivity.
  - destruct (Ascii.eqb c "010"); [eexists _, _; reflexivity |].
    rewrite IH. eexists _, _. reflexivity.
Qed.

Lemma split_lines_app_newline (a b : string) :
  split_lines (a ++ newline ++ b) = (split_lines a ++ split_lines b)%list.
Proof.
  induction a as [| c a IH].
  - reflexivity.
  - cbn [append split_lines]. rewrite IH.
    destruct (Ascii.eqb c "010"); [reflexivity |].
    destruct (split_lines_cons a) as (h & t & ->). reflexivity.
Qed.

Lemma has_newline_app (a b : string) :
  has_newline (a ++ b) = (has_newline a || has_newline b)%bool.
Proof.
  induction a as [| c a IH]; cbn [append has_newline]; [reflexivity |].
  destruct (Ascii.eqb c "010"); [reflexivity | exact IH].
Qed.

Lemma split_lines_prefix (a b : string) :
  has_newline a = false ->
  split_lines (a ++ b) =
  match split_lines b with
  | h :: t => (a ++ h) :: t
  | [] => [a]
  end.
Proof.
  induction a as [| c a IH]; cbn [append has_newline split_lines].
  - intros _. destruct (split_lines_cons b) as (h & t & ->). reflexivity.
  - destruct (Ascii.eqb c "010"); [discriminate |].
    intros Ha. rewrite (IH Ha).
    destruct (split_lines b); reflexivity.
Qed.

Lemma split_lines_one_line (a : string) : has_newline a = false -> split_lines a = [a].
Proof.
  intros Ha. rewrite <- (append_nil_r a) at 1.
  rewrite (split_lines_prefix a "" Ha). cbn [split_lines].
  rewrite append_nil_r. reflexivity.
Qed.

Lemma split_lines_no_newline (s : string) :
  Forall (fun line => has_newline line = false) (split_lines s).
Proof.
  induction s as [| c s IH]; cbn [split_lines].
  - constructor; [reflexivity | constructor].
  - destruct (Ascii.eqb c "010") eqn:E.
    + constructor; [reflexivity | exact IH].
    + destruct (split_lines s) as [| h t].
      * constructor; [cbn [has_newline]; rewrite E; reflexivity | constructor].
      * inversion IH as [| ? ? Hh Ht]; subst.
        constructor; [cbn [has_newline]; rewrite E; exact Hh | exact Ht].
Qed.

Lemma has_newline_str_mul (n : nat) : has_newline (str_mul n " ") = false.
Proof. induction n as [| n IH]; cbn [str_mul]; [reflexivity | exact IH]. Qed.

Lemma flat_map_split_one_line (xs : list string) :
  Forall (fun line => has_newline line = false) xs ->
  flat_map split_lines xs = xs.
Proof.
  induction 1 as [| x rest Hx _ IH]; cbn [flat_map]; [reflexivity |].
  rewrite (split_lines_one_line x Hx), IH. reflexivity.
Qed.

Lemma split_lines_join (x : string) (xs : list string) :
  split_lines (join newline (x :: xs)) = flat_map split_lines (x :: xs).
Proof.
  revert x. induction xs as [| y rest IH]; intros x.
  - cbn [join String.concat flat_map]. rewrite app_nil_r. reflexivity.
  - change (join newline (x :: y :: rest))
      with (x ++ newline ++ join newline (y :: rest)).
    rewrite split_lines_app_newline, IH. reflexivity.
Qed.

Lemma join_prefix (sp x : string) (xs : list string) :
  sp ++ join (newline ++ sp) (x :: xs)
  = join newline (List.map (fun line => sp ++ line) (x :: xs)).
Proof.
  revert x. induction xs as [| y rest IH]; intros x.
  - reflexivity.
  - change (join (newline ++ sp) (x :: y :: rest))
      with (x ++ (newline ++ sp) ++ join (newline ++ sp) (y :: rest)).
    change (join newline (List.map (fun line => sp ++ line) (x :: y :: rest)))
      with ((sp ++ x) ++ newline
            ++ join newline (List.map (fun line => sp ++ line) (y :: rest))).
    rewrite <- (IH y). rewrite !append_assoc. reflexivity.
Qed.

Lemma join_split_lines (s : string) : join newline (split_lines s) = s.
Proof.
  induction s as [| c s IH]; cbn [split_lines]; [reflexivity |].
  destruct (split_lines_cons s) as (h & t & Hs). rewrite Hs in *.
  destruct (Ascii.eqb c "010") eqn:E.
  - apply Ascii.eqb_eq in E. subst c.
    change (join newline ("" :: h :: t)) with ("" ++ newline ++ join newline (h :: t)).
    rewrite IH. reflexivity.
  - destruct t as [| l t].
    + cbn [join String.concat] in *. rewrite IH. reflexivity.
    + change (join newline (String c h :: l :: t))
        with (String c (h ++ newline ++ join newline (l :: t))).
      change (join newline (h :: l :: t))
        with (h ++ newline ++ join newline (l :: t)) in IH.
      rewrite IH. reflexivity.
Qed.

Lemma addindent_lines (s : string) (n : nat) :
  split_lines (_addindent s n) =
  match split_lines s with
  | first :: rest => first :: List.map (fun line => str_mul n " " ++ line) rest
  | [] => []
  end.
Proof.
  unfold _addindent.
  pose proof (split_lines_no_newline s) as Hno.
  destruct (split_lines s) as [| first rest] eqn:E.
  - cbn [List.length Nat.eqb]. exact E.
  - destruct rest as [| r1 rest].
    + cbn [List.length Nat.eqb List.map]. exact E.
    + cbn [List.length Nat.eqb].
      inversion Hno as [| ? ? Hfirst Hrest]; subst.
      rewrite split_lines_app_newline, (split_lines_one_line first Hfirst).
      cbn [app]. f_equal.
      change (List.map (fun line => str_mul n " " ++ line) (r1 :: rest))
        with ((str_mul n " " ++ r1)
              :: List.map (fun line => str_mul n " " ++ line) rest).
      rewrite split_lines_join.
      apply flat_map_split_one_line.
      change ((str_mul n " " ++ r1)
              :: List.map (fun line => str_mul n " " ++ line) rest)
        with (List.map (fun line => str_mul n " " ++ line) (r1 :: rest)).
      apply Forall_map.
      apply (Forall_impl _ (P := fun line => has_newline line = false));
        [| exact Hrest].
      intros line Hline. rewrite has_newline_app, has_newline_str_mul, Hline.
      reflexivity.
Qed.

(** X21: [_addindent s n] leaves the first line of [s] as it is and puts
    [n] spaces before every other line, a last empty one included; it adds
    and removes no line; with [n = 0], and on a string of one line, it
    returns [s]. *)
Theorem addindent_shifts_all_but_first (s : string) (n : nat) :
  split_lines (_addindent s n) =
  match split_lines s with
  | first :: rest => first :: List.map (fun line => str_mul n " " ++ line) rest
  | [] => []
  end /\
  List.length (split_lines (_addindent s n)) = List.length (split_lines s) /\
  _addindent s 0 = s /\
  (has_newline s = false -> _addindent s n = s).
Proof.
  split; [apply addindent_lines |]. split; [| split].
  - rewrite addindent_lines. destruct (split_lines s); [reflexivity |].
    cbn [List.length]. rewrite List.length_map. reflexivity.
  - unfold _addindent.
    destruct (split_lines s) as [| first rest] eqn:E; [reflexivity |].
    destruct rest as [| r1 rest]; [reflexivity |].
    cbn [List.length Nat.eqb str_mul].
    rewrite <- (join_split_lines s), E.
    change (join newline (first :: r1 :: rest))
      with (first ++ newline ++ join newline (r1 :: rest)).
    f_equal. f_equal. f_equal. apply List.map_id.
  - intros Hone. unfold _addindent.
    rewrite (split_lines_one_line s Hone). reflexivity.
Qed.

Lemma assemble (head x : string) (xs : list string) :
  (head ++ ((newline ++ "  ") ++ join (newline ++ "  ") (x :: xs) ++ newline)) ++ ")"
  = head ++ newline
    ++ join newline (List.map (fun line => "  " ++ line) (x :: xs))
    ++ newline ++ ")".
Proof.
  rewrite <- (join_prefix "  " x xs). rewrite !append_assoc. reflexivity.
Qed.

Lemma repr_unfold (class_name : Module -> string) (self : Module) :
  __repr__ class_name self =
  match _modules self with
  | [] => (class_name self ++ "(") ++ ")"
  | (k, c) :: rest =>
      (class_name self ++ "(")
      ++ newline
      ++ join newline
           (List.map
              (fun '(key, module) =>
                 ("  (" ++ key ++ "): ")
                 ++ _addindent (__repr__ class_name module) 2)
              ((k, c) :: rest))
      ++ newline ++ ")"
  end.
Proof.
  destruct self as [ms ps fs fw]. cbn [__repr__ _modules]. unfold items.
  destruct ms as [| [k c] rest]; [reflexivity |].
  cbn [List.map]. rewrite assemble.
  f_equal. f_equal. f_equal.
  change (("(" ++ k ++ "): " ++ _addindent (__repr__ class_name c) 2)
          :: List.map
               (fun '(key, module) =>
                  "(" ++ key ++ "): " ++ _addindent (__repr__ class_name module) 2)
               rest)
    with (List.map
            (fun '(key, module) =>
               "(" ++ key ++ "): " ++ _addindent (__repr__ class_name module) 2)
            ((k, c) :: rest)).
  rewrite List.map_map. f_equal. cbn [List.map]. f_equal.
  - rewrite !append_assoc. reflexivity.
  - apply List.map_ext. intros [key module]. rewrite !append_assoc. reflexivity.
Qed.

Lemma repr_lines_of (class_name : Module -> string) (self : Module) :
  has_newline (class_name self) = false ->
  Forall (fun kc : string * Module => has_newline (fst kc) = false) (_modules self) ->
  split_lines (__repr__ class_name self) =
  match _modules self with
  | [] => [(class_name self ++ "()")%string]
  | _ :: _ =>
      ((class_name self ++ "(")%string
       :: flat_map
            (fun '(key, module) =>
               match split_lines (__repr__ class_name module) with
               | first :: rest =>
                   ("  (" ++ key ++ "): " ++ first)%string
                   :: List.map (fun line => ("  " ++ line)%string) rest
               | [] => []
               end)
            (_modules self)
       ++ [")"%string])%list
  end.
Proof.
  intros Hcls Hkeys. rewrite repr_unfold.
  assert (Hhead : has_newline (class_name self ++ "(") = false).
  { rewrite has_newline_app, Hcls. reflexivity. }
  destruct (_modules self) as [| [k c] rest] eqn:Hms.
  - rewrite append_assoc. apply split_lines_one_line.
    rewrite has_newline_app, Hcls. reflexivity.
  - rewrite split_lines_app_newline, (split_lines_one_line _ Hhead).
    cbn [app]. f_equal.
    rewrite split_lines_app_newline. f_equal.
    change (List.map
              (fun '(key, module) =>
                 ("  (" ++ key ++ "): ") ++ _addindent (__repr__ class_name module) 2)
              ((k, c) :: rest))
      with ((("  (" ++ k ++ "): ") ++ _addindent (__repr__ class_name c) 2)
            :: List.map
                 (fun '(key, module) =>
                    ("  (" ++ key ++ "): ") ++ _addindent (__repr__ class_name module) 2)
                 rest).
    rewrite split_lines_join.
    change ((("  (" ++ k ++ "): ") ++ _addindent (__repr__ class_name c) 2)
            :: List.map
                 (fun '(key, module) =>
                    ("  (" ++ key ++ "): ") ++ _addindent (__repr__ class_name module) 2)
                 rest)
      with (List.map
              (fun '(key, module) =>
                 ("  (" ++ key ++ "): ") ++ _addindent (__repr__ class_name module) 2)
              ((k, c) :: rest)).
    clear Hms. induction Hkeys as [| [key module] tail Hkey _ IH];
      cbn [List.map flat_map]; [reflexivity |].
    rewrite IH. f_equal. cbn [fst] in Hkey.
    assert (Hlabel : has_newline ("  (" ++ key ++ "): ") = false).
    { cbn [append has_newline Ascii.eqb]. rewrite has_newline_app, Hkey. reflexivity. }
    rewrite (split_lines_prefix _ _ Hlabel).
    rewrite (addindent_lines (__repr__ class_name module) 2).
    destruct (split_lines_cons (__repr__ class_name module)) as (first & lines & ->).
    rewrite !append_assoc. reflexivity.
Qed.

(** X22: the rendering of a module, line by line, when neither the name of
    its class nor the name of a child has a line break.  Without children
    it is the one line [Name()].  With children it is [Name(], then for each
    child, in insertion order, the lines of the child's own rendering moved
    two spaces to the right, the first of them after the label [(name): ],
    and then [)]. *)
Theorem repr_lines (class_name : Module -> string) (self : Module) :
  has_newline (class_name self) = false ->
  Forall (fun kc : string * Module => has_newline (fst kc) = false) (_modules self) ->
  split_lines (__repr__ class_name self) =
  match _modules self with
  | [] => [(class_name self ++ "()")%string]
  | _ :: _ =>
      ((class_name self ++ "(")%string
       :: flat_map
            (fun '(key, module) =>
               match split_lines (__repr__ class_name module) with
               | first :: rest =>
                   ("  (" ++ key ++ "): " ++ first)%string
                   :: List.map (fun line => ("  " ++ line)%string) rest
               | [] => []
               end)
            (_modules self)
       ++ [")"%string])%list
  end.
Proof. exact (repr_lines_of class_name self). Qed.

(** The tree that the source builds when it is run as a script: a root and
    two children. *)
Lemma repr_lines_witness :
  has_newline "Module" = false /\
  Forall (fun kc : string * Module => has_newline (fst kc) = false)
    (_modules
       (add_module (add_module Module___init__ "child1" Module___init__)
          "child2" Module___init__)) /\
  split_lines
    (__repr__ (fun _ => "Module")
       (add_module (add_module Module___init__ "child1" Module___init__)
          "child2" Module___init__))
  = ["Module("; "  (child1): Module()"; "  (child2): Module()"; ")"]%list.
Proof.
  assert (H1 : has_newline "Module" = false) by reflexivity.
  assert (H2 : Forall (fun kc : string * Module => has_newline (fst kc) = false)
                 (_modules
                    (add_module (add_module Module___init__ "child1" Module___init__)
                       "child2" Module___init__))).
  { repeat constructor. }
  split; [exact H1 |]. split; [exact H2 |].
  exact (eq_trans
           (repr_lines (fun _ => "Module")
              (add_module (add_module Module___init__ "child1" Module___init__)
                 "child2" Module___init__) H1 H2)
           eq_refl).
Defined.

(** The condition of the next property: in the whole tree, no class name
    and no child name has a line break. *)
Lemma one_line_names_child (class_name : Module -> string)
  (ms : dict Module) (ps : dict Parameter_) (fs : dict plain)
  (fw : option string) :
  Forall (fun d : Module =>
            has_newline (class_name d) = false /\
            Forall (fun kc : string * Module => has_newline (fst kc) = false)
              (_modules d))
    (descendants (mkModule ms ps fs fw)) ->
  (has_newline (class_name (mkModule ms ps fs fw)) = false /\
   Forall (fun kc : string * Module => has_newline (fst kc) = false) ms) /\
  Forall (fun kc : string * Module =>
            Forall (fun d : Module =>
                      has_newline (class_name d) = false /\
                      Forall (fun kc : string * Module => has_newline (fst kc) = false)
                        (_modules d))
              (descendants (snd kc))) ms.
Proof.
  cbn [descendants]. intros H. inversion H as [| ? ? Hself Hrest]; subst.
  split; [exact Hself |].
  apply Forall_flat_map in Hrest.
  revert Hrest. apply Forall_impl.
  intros [k c] Hc. exact Hc.
Qed.

(** X23: when no class name and no child name in the tree has a line
    break, the rendering has one line for each module without children and
    two, the opening and the closing one, for each module with children. *)
Theorem repr_line_count (class_name : Module -> string) (self : Module) :
  Forall (fun d : Module =>
            has_newline (class_name d) = false /\
            Forall (fun kc : string * Module => has_newline (fst kc) = false)
              (_modules d))
    (descendants self) ->
  List.length (split_lines (__repr__ class_name self))
  = list_sum
      (List.map (fun d : Module => match _modules d with [] => 1%nat | _ :: _ => 2%nat end)
         (descendants self)).
Proof.
  induction self as [ms ps fs fw IH] using Module_tree_ind.
  intros Hnames.
  destruct (one_line_names_child class_name ms ps fs fw Hnames)
    as [[Hcls Hkeys] Hchildren].
  assert (Hsum :
            List.length
              (flat_map
                 (fun '(key, module) =>
                    match split_lines (__repr__ class_name module) with
                    | first :: rest =>
                        ("  (" ++ key ++ "): " ++ first)%string
                        :: List.map (fun line => ("  " ++ line)%string) rest
                    | [] => []
                    end) ms)
            = list_sum
                (List.map
                   (fun d : Module =>
                      match _modules d with [] => 1%nat | _ :: _ => 2%nat end)
                   (flat_map (fun '(_, child) => descendants child) ms))).
  { clear Hnames Hkeys Hcls. revert Hchildren.
    induction IH as [| [key module] tail Hmod _ IHtail]; intros Hchildren;
      [reflexivity |].
    inversion Hchildren as [| ? ? Hc Htail]; subst.
    cbn [flat_map]. rewrite !List.length_app, List.map_app, list_sum_app.
    rewrite (IHtail Htail). f_equal.
    cbn [snd] in Hmod, Hc. rewrite <- (Hmod Hc).
    destruct (split_lines_cons (__repr__ class_name module)) as (first & lines & ->).
    cbn [List.length]. rewrite List.length_map. reflexivity. }
  rewrite (repr_lines_of class_name (mkModule ms ps fs fw) Hcls Hkeys).
  cbn [_modules descendants List.map].
  change (list_sum (?a :: ?l)) with (a + list_sum l)%nat.
  rewrite <- Hsum.
  destruct ms as [| [k c] rest]; [reflexivity |].
  cbn [List.length]. rewrite List.length_app. cbn [List.length]. lia.
Qed.

Lemma repr_line_count_witness :
  Forall (fun d : Module =>
            has_newline "Module" = false /\
            Forall (fun kc : string * Module => has_newline (fst kc) = false)
              (_modules d))
    (descendants
       (add_module Module___init__ "a" (add_module Module___init__ "b" Module___init__)))
  /\
  List.length
    (split_lines
       (__repr__ (fun _ => "Module")
          (add_module Module___init__ "a"
             (add_module Module___init__ "b" Module___init__))))
  = 5%nat.
Proof.
  assert (H : Forall (fun d : Module =>
                        has_newline "Module" = false /\
                        Forall (fun kc : string * Module => has_newline (fst kc) = false)
                          (_modules d))
                (descendants
                   (add_module Module___init__ "a"
                      (add_module Module___init__ "b" Module___init__)))).
  { repeat constructor. }
  split; [exact H |].
  exact (eq_trans
           (repr_line_count (fun _ => "Module")
              (add_module Module___init__ "a"
                 (add_module Module___init__ "b" Module___init__)) H)
           eq_refl).
Defined.

End repr_laws.

(** ** module.py: assignment and enumeration *)

Module assignment_laws.
Import py py_facts module module_facts.


(** X25: a parameter that is registered is listed.  After
    [add_parameter(k, v)], [named_parameters] has the new parameter under
    the name [k]; and once the module is registered in a root under the name
    [a], the root lists the parameter under [a.k]. *)
Theorem registered_parameter_is_listed
  (self root : Module) (a k : string) (v : payload) :
  In (k, Parameter___init__ v (Some k))
     (named_parameters (fst (add_parameter self k v))) /\
  In ((a ++ "." ++ k)%string, Parameter___init__ v (Some k))
     (named_parameters (add_module root a (fst (add_parameter self k v)))).
Proof.
  split.
  - apply (named_parameters_resolve [] (fst (add_parameter self k v))
             (fst (add_parameter self k v)) "" k); [reflexivity |].
    cbn [add_parameter fst _parameters]. apply get_setitem_same.
  - apply (named_parameters_resolve [a]
             (add_module root a (fst (add_parameter self k v)))
             (fst (add_parameter self k v)) "" k).
    + cbn [resolve add_module _modules]. rewrite get_setitem_same. reflexivity.
    + cbn [add_parameter fst _parameters]. apply get_setitem_same.
Qed.

End assignment_laws.
